(** * twilio-taskrouter.js: Task and Routes

    A shallow embedding of [lib/Task.js] and [lib/util/Routes.js] and the
    properties of the Task/Transfer synchronisation engine.

    JavaScript objects used as records of named properties are finite maps
    from property names to values ([gmap string value]); exceptions and the
    mutation of [this] are explicit: every method is a function from the
    state before the call to an outcome and the state after it. *)

From Stdlib Require Import ZArith Ascii String List.
From stdpp Require Import gmap strings list fin_maps pretty.

Set Warnings "-register-all".

Local Open Scope string_scope.

(** ** JavaScript values *)

(** The values that flow through the library: JSON documents plus
    [undefined].  Numbers are the integer-valued ones (priority, age and
    timeout are integers).  An object literal is a list of own properties in
    insertion order. *)
Inductive value : Type :=
| VUndefined
| VNull
| VBool (b : bool)
| VNum (n : Z)
| VStr (s : string)
| VArr (items : list value)
| VObj (props : list (string * value)).

(** Truthiness, as tested by [if (x)], [!x], [a || b] and [a && b]. *)
Definition truthy (v : value) : bool :=
  match v with
  | VUndefined | VNull => false
  | VBool b => b
  | VNum n => negb (n =? 0)%Z
  | VStr s => negb (String.eqb s "")
  | VArr _ | VObj _ => true
  end.

(** lodash's [_.isString], [_.isBoolean] and [_.isObject]. *)
Definition isString (v : value) : bool :=
  match v with VStr _ => true | _ => false end.

Definition isBoolean (v : value) : bool :=
  match v with VBool _ => true | _ => false end.

Definition isObject (v : value) : bool :=
  match v with VArr _ | VObj _ => true | _ => false end.

(** Own-property lookup in an object literal; a later binding of a key
    shadows an earlier one, as in a literal with a repeated key. *)
Fixpoint assoc (k : string) (ps : list (string * value)) : option value :=
  match ps with
  | [] => None
  | (k', v) :: ps' =>
      match assoc k ps' with
      | Some w => Some w
      | None => if String.eqb k k' then Some v else None
      end
  end.

(** [v[k]] for one of the property names the library reads ([sid],
    [incoming], [outgoing], [reason], [attributes], [mode], [priority]):
    [None] is the TypeError raised on [undefined] and [null]; primitives and
    arrays have no such property and a missing own property reads as
    [undefined]. *)
Definition getProp (v : value) (k : string) : option value :=
  match v with
  | VUndefined | VNull => None
  | VObj ps => Some (default VUndefined (assoc k ps))
  | _ => Some VUndefined
  end.

(** [a === b] for the values compared by the library.  Two object operands
    are equal only when they are the same reference; an event payload and a
    held transfer never share one, so composite operands compare unequal. *)
Definition strictEq (a b : value) : bool :=
  match a, b with
  | VUndefined, VUndefined => true
  | VNull, VNull => true
  | VBool x, VBool y => Bool.eqb x y
  | VNum x, VNum y => (x =? y)%Z
  | VStr x, VStr y => String.eqb x y
  | _, _ => false
  end.

(** ** Errors *)

(** The three classes of error objects the two files create. *)
Inductive error_class := TypeErrorClass | ErrorClass | INVALID_ARGUMENT.

(** One constructor per [throw] site, the arguments being the values
    interpolated into the message; [NullDereference] is the TypeError of
    reading a property of [undefined] or [null], and [DescriptorError] and
    [TransfersError] are what the descriptor and the transfers throw, and
    [UnhandledErrorEvent] is the Error that [EventEmitter.emit] throws for
    the event [error] when nothing listens for it. *)
Inductive error : Type :=
| RoutesCtorError
| InvalidRoute (route : string)
| InvalidArgCount (route : string)
| CompleteReasonRequired
| TransferToRequired
| WrapUpReasonRequired (sid : value)
| SetAttributesRequired
| UpdateParticipantOptions (sid : value)
| KickWorkerSidRequired
| HoldTargetRequired
| HoldOnHoldRequired
| EmitEventTypeRequired
| EmitPayloadRequired
| OutgoingEventTypeRequired
| OutgoingPayloadRequired
| NullDereference
| DescriptorError (msg : string)
| TransfersError (msg : string)
| UnhandledErrorEvent
| UpdateAborted (sid : value) (cause : error).

(** The class of each error; what a collaborator throws is only known to be
    an [Error]. *)
Definition class_of (e : error) : error_class :=
  match e with
  | RoutesCtorError | InvalidRoute _ | InvalidArgCount _ => INVALID_ARGUMENT
  | WrapUpReasonRequired _ | UpdateAborted _ _ => ErrorClass
  | DescriptorError _ | TransfersError _ | UnhandledErrorEvent => ErrorClass
  | CompleteReasonRequired | TransferToRequired | SetAttributesRequired
  | UpdateParticipantOptions _ | KickWorkerSidRequired | HoldTargetRequired
  | HoldOnHoldRequired | EmitEventTypeRequired | EmitPayloadRequired
  | OutgoingEventTypeRequired | OutgoingPayloadRequired
  | NullDereference => TypeErrorClass
  end.

(** ** Routes.js *)

Module Routes.

Definition RESERVATION_LIST := "reservationList".
Definition RESERVATION_INSTANCE := "reservationInstance".
Definition WORKER_INSTANCE := "workerInstance".
Definition WORKER_LIST := "workerList".
Definition TASK_RESERVATION_INSTANCE := "taskReservationInstance".
Definition TASK_LIST := "taskList".
Definition TASK_INSTANCE := "taskInstance".
Definition TASK_TRANSFER_LIST := "taskTransferList".
Definition TASK_TRANSFER_INSTANCE := "taskTransferInstance".
Definition TASKQUEUE_LIST := "taskQueueList".
Definition WORKER_CHANNELS := "workerChannels".
Definition ACTIVITIES_LIST := "activitiesList".
Definition CUSTOMER_PARTICIPANT_INSTANCE := "customerParticipantInstance".
Definition WORKER_PARTICIPANT_INSTANCE := "workerParticipantInstance".
Definition HOLD_WORKER_PARTICIPANT_INSTANCE := "holdWorkerParticipantInstance".
Definition KICK_WORKER_PARTICIPANT := "kickWorkerParticipant".

(** *** Node's [path.join] (POSIX) *)

(** [s.split('/')]. *)
Fixpoint split_slash (s : string) : list string :=
  match s with
  | "" => [""]
  | String c s' =>
      if Ascii.eqb c "/" then "" :: split_slash s'
      else match split_slash s' with
           | h :: t => String c h :: t
           | [] => [String c ""]
           end
  end.

(** [segs.join('/')]. *)
Fixpoint join_slash (segs : list string) : string :=
  match segs with
  | [] => ""
  | [s] => s
  | s :: rest => s +:+ "/" +:+ join_slash rest
  end.

(** [normalizeString]: the segments kept so far are held most recent
    first.  Empty and [.] segments are dropped; [..] removes the previous
    segment, or is kept when there is none to remove and the path is
    relative. *)
Fixpoint normalize_segments (allowAboveRoot : bool) (acc : list string)
    (segs : list string) : list string :=
  match segs with
  | [] => rev acc
  | s :: rest =>
      if String.eqb s "" || String.eqb s "." then
        normalize_segments allowAboveRoot acc rest
      else if String.eqb s ".." then
        match acc with
        | prev :: acc' =>
            if String.eqb prev ".." then
              normalize_segments allowAboveRoot (".." :: acc) rest
            else normalize_segments allowAboveRoot acc' rest
        | [] =>
            if allowAboveRoot then
              normalize_segments allowAboveRoot [".."] rest
            else normalize_segments allowAboveRoot [] rest
        end
      else normalize_segments allowAboveRoot (s :: acc) rest
  end.

Definition starts_with_slash (s : string) : bool :=
  match s with String c _ => Ascii.eqb c "/" | "" => false end.

Fixpoint ends_with_slash (s : string) : bool :=
  match s with
  | "" => false
  | String c "" => Ascii.eqb c "/"
  | String _ s' => ends_with_slash s'
  end.

(** [path.normalize]. *)
Definition normalize (p : string) : string :=
  if String.eqb p "" then "."
  else
    let isAbsolute := starts_with_slash p in
    let trailingSeparator := ends_with_slash p in
    let body := join_slash (normalize_segments (negb isAbsolute) [] (split_slash p)) in
    if String.eqb body "" then
      if isAbsolute then "/" else if trailingSeparator then "./" else "."
    else
      let body' := if trailingSeparator then body +:+ "/" else body in
      if isAbsolute then "/" +:+ body' else body'.

(** [path.join(...segments)]: the non-empty arguments joined by [/], then
    normalised. *)
Definition path_join (segments : list string) : string :=
  let joined := join_slash (filter (fun s => s ≠ "") segments) in
  if String.eqb joined "" then "." else normalize joined.

(** *** The route table *)

Record Route := { path : string }.

Record t := {
  workspaceSid : string;
  workerSid : string;
  routes : gmap string Route
}.

(** The table built by the constructor, in declaration order. *)
Definition route_table (ws wk : string) : list (string * Route) :=
  [ (ACTIVITIES_LIST, {| path := path_join ["Workspaces"; ws; "Activities"] |});
    (WORKER_INSTANCE, {| path := path_join ["Workspaces"; ws; "Workers"; wk] |});
    (WORKER_LIST, {| path := path_join ["Workspaces"; ws; "Workers"] |});
    (RESERVATION_INSTANCE,
      {| path := path_join ["Workspaces"; ws; "Workers"; wk; "Reservations"; "%s"] |});
    (RESERVATION_LIST,
      {| path := path_join ["Workspaces"; ws; "Workers"; wk; "Reservations"] |});
    (TASK_LIST, {| path := path_join ["Workspaces"; ws; "Tasks"] |});
    (TASK_INSTANCE, {| path := path_join ["Workspaces"; ws; "Tasks"; "%s"] |});
    (TASK_TRANSFER_LIST,
      {| path := path_join ["Workspaces"; ws; "Workers"; wk; "Transfers"] |});
    (TASK_TRANSFER_INSTANCE,
      {| path := path_join ["Workspaces"; ws; "Workers"; wk; "Transfers"; "%s"] |});
    (TASK_RESERVATION_INSTANCE,
      {| path := path_join ["Workspaces"; ws; "Tasks"; "%s"; "Reservations"; "%s"] |});
    (TASKQUEUE_LIST, {| path := path_join ["Workspaces"; ws; "TaskQueues"] |});
    (WORKER_CHANNELS,
      {| path := path_join ["Workspaces"; ws; "Workers"; wk; "WorkerChannels"] |});
    (CUSTOMER_PARTICIPANT_INSTANCE,
      {| path := path_join ["Workspaces"; ws; "Workers"; wk; "CustomerParticipant"] |});
    (WORKER_PARTICIPANT_INSTANCE,
      {| path := path_join ["Workspaces"; ws; "Workers"; wk; "WorkerParticipant"] |});
    (HOLD_WORKER_PARTICIPANT_INSTANCE,
      {| path := path_join ["Workspaces"; ws; "Workers"; wk; "HoldWorkerParticipant"] |});
    (KICK_WORKER_PARTICIPANT,
      {| path := path_join ["Workspaces"; ws; "Workers"; wk; "KickWorkerParticipant"] |}) ].

(** [new Routes(workspaceSid, workerSid)]: an empty sid is falsy. *)
Definition new (ws wk : string) : error + t :=
  if String.eqb ws "" || String.eqb wk "" then inl RoutesCtorError
  else inr {| workspaceSid := ws; workerSid := wk;
              routes := list_to_map (route_table ws wk) |}.

(** *** Placeholders *)

(** [(p.match(/%s/g) || []).length]: the matches are found scanning left to
    right, each search resuming after the previous match. *)
Fixpoint count_placeholders (p : string) : nat :=
  match p with
  | "" => 0
  | String c p' =>
      match p' with
      | String d p'' =>
          if Ascii.eqb c "%" && Ascii.eqb d "s" then S (count_placeholders p'')
          else count_placeholders p'
      | "" => 0
      end
  end.

(** The text before and after the first match of [/%s/], if there is one. *)
Fixpoint first_placeholder (p : string) : option (string * string) :=
  match p with
  | "" => None
  | String c p' =>
      match p' with
      | String d p'' =>
          if Ascii.eqb c "%" && Ascii.eqb d "s" then Some ("", p'')
          else match first_placeholder p' with
               | Some (pre, post) => Some (String c pre, post)
               | None => None
               end
      | "" => None
      end
  end.

(** [GetSubstitution] for a pattern without capture groups: in the
    replacement text [$$] stands for a dollar sign, [$&] for the matched
    text, [$`] and [$'] for the text before and after the match; any other
    character, and a dollar sign followed by anything else, stands for
    itself. *)
Fixpoint getSubstitution (matched before after tpl : string) : string :=
  match tpl with
  | "" => ""
  | String c tpl' =>
      if Ascii.eqb c "$" then
        match tpl' with
        | String d tpl'' =>
            if Ascii.eqb d "$" then
              "$" +:+ getSubstitution matched before after tpl''
            else if Ascii.eqb d "&" then
              matched +:+ getSubstitution matched before after tpl''
            else if Ascii.eqb d "`" then
              before +:+ getSubstitution matched before after tpl''
            else if Ascii.eqb d "'" then
              after +:+ getSubstitution matched before after tpl''
            else String c (getSubstitution matched before after tpl')
        | "" => "$"
        end
      else String c (getSubstitution matched before after tpl')
  end.

(** [p.replace(/%s/, arg)]: only the first match is replaced. *)
Definition replace_first (p arg : string) : string :=
  match first_placeholder p with
  | None => p
  | Some (pre, post) => pre +:+ getSubstitution "%s" pre post arg +:+ post
  end.

(** [getRoute(route, ...args)].  With no positional argument the registered
    route is returned as it is; otherwise a copy of it whose path has had its
    placeholders replaced, one [replace] per argument in order.  The route
    is looked up among the keys the constructor registered; a name that
    [this.routes] inherits from [Object.prototype] ([toString],
    [constructor] and the like) is not a route name and is not covered. *)
Definition getRoute (r : t) (route : string) (args : list string) : error + Route :=
  match routes r !! route with
  | None => inl (InvalidRoute route)
  | Some registered =>
      match args with
      | [] => inr registered
      | _ :: _ =>
          if negb (length args =? count_placeholders (path registered))%nat then
            inl (InvalidArgCount route)
          else
            inr {| path := fold_left replace_first args (path registered) |}
      end
  end.

(** *** Substitution as the specification words it *)

(** [occurs c s]: the character [c] occurs in [s]. *)
Fixpoint occurs (c : ascii) (s : string) : bool :=
  match s with
  | "" => false
  | String d s' => Ascii.eqb c d || occurs c s'
  end.

(** Strictly left to right, one placeholder consumed per argument: each
    placeholder met while reading the template is replaced by the next
    unused argument, and what follows it is filled with the rest. *)
Fixpoint fill (p : string) (args : list string) : string :=
  match p with
  | "" => ""
  | String c p' =>
      match p' with
      | String d p'' =>
          if Ascii.eqb c "%" && Ascii.eqb d "s" then
            match args with
            | a :: args' => a +:+ fill p'' args'
            | [] => p
            end
          else String c (fill p' args)
      | "" => p
      end
  end.

(** An argument that is inserted as it is and cannot form a placeholder:
    it has no percent sign and no dollar sign. *)
Definition plain_argument (a : string) : bool :=
  negb (occurs "%" a) && negb (occurs "$" a).

(** A segment that [path.join] keeps as it is: not empty, not [.] or [..],
    and without a slash. *)
Definition plain_segment (s : string) : bool :=
  negb (String.eqb s "") && negb (String.eqb s ".") && negb (String.eqb s "..")
  && negb (occurs "/" s).

(** A sid that is one path segment and has no percent sign. *)
Definition plain_sid (s : string) : bool :=
  plain_segment s && negb (occurs "%" s).

(** A segment of a registered route: plain, and either free of percent
    signs or the placeholder itself. *)
Definition segment_ok (s : string) : bool :=
  plain_segment s && (negb (occurs "%" s) || String.eqb s "%s").

(** A template in which every percent sign starts a placeholder. *)
Fixpoint template_ok (p : string) : bool :=
  match p with
  | "" => true
  | String c p' =>
      if Ascii.eqb c "%" then
        match p' with
        | String d p'' => Ascii.eqb d "s" && template_ok p''
        | "" => false
        end
      else template_ok p'
  end.

(** The route table of workspace [WSxxx] and worker [WKyyy]. *)
Definition sample_routes : t :=
  {| workspaceSid := "WSxxx"; workerSid := "WKyyy";
     routes := list_to_map (route_table "WSxxx" "WKyyy") |}.

End Routes.


(** ** Task.js *)

Module Task.

(** *** Constants *)

Inductive api_version := API_V1 | API_V2.

(** Modelled from the spec: [TASK_STATUS_COMPLETED] of [util/Constants], the
    AssignmentStatus sent by complete. *)
Definition TASK_STATUS_COMPLETED := "completed".

(** Modelled from the spec: [TASK_STATUS_WRAPPING] of [util/Constants], the
    AssignmentStatus sent by wrapUp. *)
Definition TASK_STATUS_WRAPPING := "wrapping".

(** Modelled from the spec: [TRANSFER_INITIATED] of [util/Constants], the
    kind of the event that announces an outgoing transfer. *)
Definition TRANSFER_INITIATED := "transfer-initiated".

(** Modelled from the spec: [taskTransferEventTypes] of [util/Constants],
    the table from the kind of a transfer event to the name of the domain
    event emitted for it. *)
Definition taskTransferEventTypes : list (string * string) :=
  [ ("transfer-attempt-failed", "transferAttemptFailed");
    ("transfer-canceled", "transferCanceled");
    ("transfer-completed", "transferCompleted");
    ("transfer-failed", "transferFailed");
    ("transfer-initiated", "transferInitiated") ].

Definition fieldsToUpdate : list string :=
  [ "attributes"; "status"; "workflowSid"; "workflowName"; "queueSid";
    "queueName"; "priority"; "reason"; "routingTarget"; "timeout";
    "taskChannelSid"; "taskChannelUniqueName"; "age"; "addOns";
    "dateUpdated"; "transfers" ].

Definition TaskProperties : list string :=
  [ "addons"; "age"; "attributes"; "date_created"; "date_updated";
    "priority"; "queue_name"; "queue_sid"; "reason"; "routing_target";
    "sid"; "assignment_status"; "task_channel_unique_name";
    "task_channel_sid"; "timeout"; "workflow_name"; "workflow_sid" ].

(** *** State *)

(** Modelled from the spec: a transfer entity of [core/transfer], built from
    a payload; it has its own sid, and its mode, status and other leg are
    those of the payload it was built from. *)
Record Transfer := { transfer_sid : value; transfer_data : value }.

(** Modelled from the spec: the [Transfers] object of [core/transfer], which
    holds at most one incoming and one outgoing transfer and emits the events
    scoped to them. *)
Record Transfers := {
  incoming : option Transfer;
  outgoing : option Transfer;
  transfer_events : list (value * value)
}.

Inductive log_entry :=
| TraceEmitEvent (eventType rawEventData : value)
| TraceEmitEventForOutgoingTransfer (eventType rawEventData : value)
| DebugNoMatchingOutgoing (rawEventData : value)
| InfoCompletedTransfer (to : value)
| ErrorUpdateFailed (sid : value) (err : error).

(** What an emitted event carries: the Task itself ([this]) or the outgoing
    slot as it is when the event is emitted. *)
Inductive payload :=
| ThisTask
| OutgoingSlot (o : option Transfer).

(** A Task: its own data properties ([sid], [reservationSid] and the fields
    copied from descriptors), its [Transfers], the route table of its worker,
    and the two output channels, the logger and the emitter. *)
Record t := {
  fields : gmap string value;
  transfers : Transfers;
  routes : Routes.t;
  log : list log_entry;
  emitted : list (value * payload)
}.

(** [this[k]]. *)
Definition field (k : string) (s : t) : value :=
  default VUndefined (fields s !! k).

Definition set_fields (f : gmap string value) (s : t) : t :=
  {| fields := f; transfers := transfers s; routes := routes s;
     log := log s; emitted := emitted s |}.

Definition set_transfers (ts : Transfers) (s : t) : t :=
  {| fields := fields s; transfers := ts; routes := routes s;
     log := log s; emitted := emitted s |}.

Definition add_log (e : log_entry) (s : t) : t :=
  {| fields := fields s; transfers := transfers s; routes := routes s;
     log := log s ++ [e]; emitted := emitted s |}.

Definition add_emitted (name : value) (p : payload) (s : t) : t :=
  {| fields := fields s; transfers := transfers s; routes := routes s;
     log := log s; emitted := emitted s ++ [(name, p)] |}.

(** *** Methods as state transformers that may throw *)

(** A method body: from the Task before to what was returned or thrown and
    the Task after.  What was done before a throw stays done. *)
Definition M (A : Type) : Type := t -> (error + A) * t.

Definition ret {A} (a : A) : M A := fun s => (inr a, s).

Definition throw {A} (e : error) : M A := fun s => (inl e, s).

Definition bind {A B} (m : M A) (k : A -> M B) : M B :=
  fun s =>
    match m s with
    | (inr a, s') => k a s'
    | (inl e, s') => (inl e, s')
    end.

Notation "x <- m ;; k" := (bind m (fun x => k))
  (at level 100, m at next level, right associativity).
Notation "m ;;; k" := (bind m (fun _ => k))
  (at level 100, right associativity).

(** [try { body } catch (err) { handler }]. *)
Definition try_catch {A} (body : M A) (handler : error -> M A) : M A :=
  fun s =>
    match body s with
    | (inl e, s') => handler e s'
    | (inr a, s') => (inr a, s')
    end.

Definition this : M t := fun s => (inr s, s).

Definition update (f : t -> t) : M unit := fun s => (inr tt, f s).

Definition of_result {A} (r : error + A) : M A :=
  match r with inl e => throw e | inr a => ret a end.

(** [v.k], which throws on [undefined] and [null]. *)
Definition read (v : value) (k : string) : M value :=
  match getProp v k with
  | Some w => ret w
  | None => throw NullDereference
  end.

(** [this.transfers.m(...)] for a method [m] of [Transfers]. *)
Definition on_transfers (m : Transfers -> (error + unit) * Transfers) : M unit :=
  fun s => let (r, ts) := m (transfers s) in (r, set_transfers ts s).

(** [xs.forEach(f)]. *)
Fixpoint forEach {A} (xs : list A) (f : A -> M unit) : M unit :=
  match xs with
  | [] => ret tt
  | x :: xs' => f x ;;; forEach xs' f
  end.

(** A parameter with the default [{}]: the default is taken when the
    argument is [undefined]. *)
Definition default_empty (v : value) : value :=
  match v with VUndefined => VObj [] | _ => v end.

(** *** Collaborators *)

(** The parts of the library that [Task] calls and that are kept abstract:
    the descriptor of [descriptors/TaskDescriptor], three methods of
    [core/transfer/Transfers] and [validateOptions] of [util/Tools].  A
    descriptor is the record of its fields. *)
Record Collaborators := {
  TaskDescriptor : value -> value -> error + gmap string value;
  Transfers_update : value -> Transfers -> (error + unit) * Transfers;
  Transfers_updateOutgoing :
    value -> value -> Transfers -> (error + unit) * Transfers;
  Transfers_emitEvent :
    value -> value -> Transfers -> (error + unit) * Transfers;
  validateOptions : value -> list (string * (value -> bool)) -> bool
}.

(** [xs.join(',')]. *)
Definition join_comma (xs : list string) : string :=
  match xs with
  | [] => ""
  | x :: rest => fold_left (fun acc s => acc +:+ "," +:+ s) rest x
  end.

(** The double nearest to the integer [w], for [0 < w]: [w] rounded to 53
    significant bits, a tie going to the even neighbour. *)
Definition nearest_double (w : Z) : Z :=
  let bits := (Z.log2 w + 1)%Z in
  if (bits <=? 53)%Z then w
  else
    let shift := (bits - 53)%Z in
    let q := Z.shiftr w shift in
    let r := (w - Z.shiftl q shift)%Z in
    let half := Z.shiftl 1 (shift - 1) in
    let q' := if (half <? r)%Z || ((r =? half)%Z && Z.odd q)
              then (q + 1)%Z else q in
    Z.shiftl q' shift.

(** The number of decimal digits of [x], for [0 < x]. *)
Definition decimal_digits (x : Z) : Z :=
  Z.of_nat (String.length (pretty x)).

(** The shortest digits that denote the double [x]: the least [k], from
    [k] on, with a [k]-digit [s] such that [s * 10 ^ (n - k)] rounds to
    [x], where [n] is the number of digits of [x]; of two such [s] the one
    nearer to [x], and the even one of two equally near. *)
Fixpoint shortest_digits (fuel : nat) (k x n : Z) : Z * Z :=
  match fuel with
  | O => (n, x)
  | S fuel' =>
      let scale := (10 ^ (n - k))%Z in
      let lo := (x / scale)%Z in
      let hi := (lo + 1)%Z in
      let fits c :=
        (10 ^ (k - 1) <=? c)%Z && (c <? 10 ^ k)%Z
        && (nearest_double (c * scale) =? x)%Z in
      match fits lo, fits hi with
      | true, true =>
          let below := (x - lo * scale)%Z in
          let above := (hi * scale - x)%Z in
          if (below <? above)%Z then (k, lo)
          else if (above <? below)%Z then (k, hi)
          else if Z.even lo then (k, lo) else (k, hi)
      | true, false => (k, lo)
      | false, true => (k, hi)
      | false, false => shortest_digits fuel' (k + 1)%Z x n
      end
  end.

(** [Number::toString] for a positive integer [w], read as the number that
    the numeric literal [w] denotes: the digits in full when there are at
    most 21 of them, with an exponent otherwise. *)
Definition positive_to_string (w : Z) : string :=
  let x := nearest_double w in
  if (2 ^ 1024 <=? x)%Z then "Infinity"
  else
    let digits := decimal_digits x in
    let '(n, (k, s)) :=
      if (nearest_double (10 ^ digits) =? x)%Z then ((digits + 1)%Z, (1%Z, 1%Z))
      else (digits, shortest_digits (Z.to_nat digits) 1 x digits) in
    if (n <=? 21)%Z then
      pretty s +:+ String.concat "" (replicate (Z.to_nat (n - k)) "0")
    else
      match pretty s with
      | String first rest =>
          String first (if (k =? 1)%Z then "" else "." +:+ rest)
          +:+ "e+" +:+ pretty (n - 1)%Z
      | "" => ""
      end.

(** [Number::toString] for the integer-valued numbers. *)
Definition number_to_string (n : Z) : string :=
  if (n =? 0)%Z then "0"
  else if (n <? 0)%Z then "-" +:+ positive_to_string (- n)
  else positive_to_string n.

(** [String(v)], as applied to an argument of [String.prototype.replace];
    an object is one without a [toString] or [valueOf] of its own. *)
Fixpoint toString (v : value) : string :=
  match v with
  | VUndefined => "undefined"
  | VNull => "null"
  | VBool b => if b then "true" else "false"
  | VNum n => number_to_string n
  | VStr s => s
  | VArr items =>
      join_comma
        (map (fun i => match i with
                       | VUndefined | VNull => ""
                       | _ => toString i
                       end) items)
  | VObj _ => "[object Object]"
  end.

(** [_.upperFirst(s)] on ASCII letters. *)
Definition upperFirst (s : string) : string :=
  match s with
  | "" => ""
  | String c s' =>
      let n := nat_of_ascii c in
      if (97 <=? n)%nat && (n <=? 122)%nat
      then String (ascii_of_nat (n - 32)) s'
      else s
  end.

(** [for (const k in v)]: the enumerable keys of [v] in order, each with
    [v[k]]. *)
Definition forIn (v : value) : list (string * value) :=
  match v with
  | VObj ps =>
      map (fun k => (k, default VUndefined (assoc k ps))) (remove_dups (map fst ps))
  | VArr items => imap (fun i x => (pretty i, x)) items
  | VStr s =>
      imap (fun i c => (pretty i, VStr (String c ""))) (list_ascii_of_string s)
  | _ => []
  end.

(** [_.pick(table, keys)], [Object.keys] and [Array.prototype.indexOf]. *)
Definition table_lookup (k : string) (tbl : list (string * string)) : option string :=
  snd <$> List.find (fun kv => String.eqb kv.1 k) tbl.

Definition pick (tbl : list (string * string)) (ks : list string)
  : list (string * string) :=
  omap (fun k => (fun v => (k, v)) <$> table_lookup k tbl) ks.

Definition keys (tbl : list (string * string)) : list string := map fst tbl.

Fixpoint indexOf (xs : list string) (x : value) : Z :=
  match xs with
  | [] => -1
  | y :: ys =>
      if strictEq (VStr y) x then 0
      else let i := indexOf ys x in if (i <? 0)%Z then -1 else (i + 1)%Z
  end.

(** A request handed to [this._request.post]. *)
Record request := {
  url : string;
  params : gmap string value;
  api : api_version
}.

Section Methods.

Variable env : Collaborators.

(** [this._worker.getRoutes().getRoute(route, ...args).path] *)
Definition route_path (route : string) (args : list value) : M string :=
  s <- this ;;
  r <- of_result (Routes.getRoute (routes s) route (map toString args)) ;;
  ret (Routes.path r).

(** The synchronous part of [complete(reason)], up to the call of [post]. *)
Definition complete (reason : value) : M request :=
  if negb (isString reason) then throw CompleteReasonRequired
  else
    s <- this ;;
    requestURL <- route_path Routes.TASK_INSTANCE [field "sid" s] ;;
    let requestParams : gmap string value :=
      <["Reason" := reason]>
        (<["AssignmentStatus" := VStr TASK_STATUS_COMPLETED]> ∅) in
    ret {| url := requestURL; params := requestParams; api := API_V1 |}.

(** [transfer(to, options = {})] up to the [await]. *)
Definition transfer (to options : value) : M request :=
  let options := default_empty options in
  if negb (isString to) then throw TransferToRequired
  else
    s <- this ;;
    requestURL <- route_path Routes.TASK_TRANSFER_LIST [] ;;
    let requestParams : gmap string value :=
      <["To" := to]>
        (<["TaskSid" := field "sid" s]>
           (<["ReservationSid" := field "reservationSid" s]> ∅)) in
    attributes <- read options "attributes" ;;
    let requestParams :=
      if truthy attributes then <["Attributes" := attributes]> requestParams
      else requestParams in
    mode <- read options "mode" ;;
    let requestParams :=
      if truthy mode then <["Mode" := mode]> requestParams
      else requestParams in
    priority <- read options "priority" ;;
    let requestParams :=
      if truthy priority then <["Priority" := priority]> requestParams
      else requestParams in
    ret {| url := requestURL; params := requestParams; api := API_V2 |}.

(** [transfer] from the point where the awaited request has resolved with
    [transferredTaskResponse]. *)
Definition transfer_resumed (to transferredTaskResponse : value) : M unit :=
  update (add_log (InfoCompletedTransfer to)) ;;;
  on_transfers (Transfers_updateOutgoing env transferredTaskResponse (VBool true)).

(** [wrapUp(options = {})] up to the call of [post]. *)
Definition wrapUp (options : value) : M request :=
  let options := default_empty options in
  s <- this ;;
  requestURL <- route_path Routes.TASK_INSTANCE [field "sid" s] ;;
  let requestParams : gmap string value :=
    <["AssignmentStatus" := VStr TASK_STATUS_WRAPPING]> ∅ in
  reason <- read options "reason" ;;
  requestParams <-
    (if truthy reason then
       if isString reason then ret (<["Reason" := reason]> requestParams)
       else throw (WrapUpReasonRequired (field "sid" s))
     else ret requestParams) ;;
  ret {| url := requestURL; params := requestParams; api := API_V1 |}.

(** [setAttributes(attributes)] up to the call of [post]. *)
Definition setAttributes (attributes : value) : M request :=
  if negb (isObject attributes) then throw SetAttributesRequired
  else
    s <- this ;;
    requestURL <- route_path Routes.TASK_INSTANCE [field "sid" s] ;;
    let requestParams : gmap string value := <["Attributes" := attributes]> ∅ in
    ret {| url := requestURL; params := requestParams; api := API_V1 |}.

(** [updateParticipant(options)] up to the call of [post]. *)
Definition updateParticipant (options : value) : M request :=
  let types := [("hold", isBoolean)] in
  s <- this ;;
  if negb (validateOptions env options types)
  then throw (UpdateParticipantOptions (field "sid" s))
  else
    requestURL <- route_path Routes.CUSTOMER_PARTICIPANT_INSTANCE [] ;;
    let requestParams : gmap string value :=
      fold_left (fun acc kv => <[upperFirst kv.1 := kv.2]> acc)
        (forIn options) (<["TaskSid" := field "sid" s]> ∅) in
    ret {| url := requestURL; params := requestParams; api := API_V2 |}.

(** [kick(workerSid)] up to the call of [post]. *)
Definition kick (workerSid : value) : M request :=
  if negb (isString workerSid) then throw KickWorkerSidRequired
  else
    s <- this ;;
    requestURL <- route_path Routes.KICK_WORKER_PARTICIPANT [] ;;
    let requestParams : gmap string value :=
      <["TargetWorkerSid" := workerSid]> (<["TaskSid" := field "sid" s]> ∅) in
    ret {| url := requestURL; params := requestParams; api := API_V2 |}.

(** [hold(targetWorkerSid, onHold)] up to the call of [post]. *)
Definition hold (targetWorkerSid onHold : value) : M request :=
  if negb (isString targetWorkerSid) then throw HoldTargetRequired
  else if negb (isBoolean onHold) then throw HoldOnHoldRequired
  else
    s <- this ;;
    requestURL <- route_path Routes.HOLD_WORKER_PARTICIPANT_INSTANCE [] ;;
    let requestParams : gmap string value :=
      <["Hold" := onHold]>
        (<["TargetWorkerSid" := targetWorkerSid]>
           (<["TaskSid" := field "sid" s]> ∅)) in
    ret {| url := requestURL; params := requestParams; api := API_V2 |}.

(** Whether something listens for the event [error]: the emitter keeps its
    listeners by event name in [this._events], which is [undefined] or an
    object, and tests [events.error === undefined]. *)
Definition error_listener (s : t) : bool :=
  match field "_events" s with
  | VObj listeners =>
      match assoc "error" listeners with
      | None | Some VUndefined => false
      | Some _ => true
      end
  | _ => false
  end.

(** [this.emit(name, payload)] of [EventEmitter]: the event [error] with
    nothing listening for it is thrown as an Error; any other event is
    handed to its listeners, which is recorded. *)
Definition emit (name : value) (p : payload) : M unit :=
  s <- this ;;
  if strictEq name (VStr "error") && negb (error_listener s)
  then throw UnhandledErrorEvent
  else update (add_emitted name p).

(** [_emitEvent(eventType, rawEventData)] *)
Definition _emitEvent (eventType rawEventData : value) : M unit :=
  update (add_log (TraceEmitEvent eventType rawEventData)) ;;;
  if negb (isString eventType) then throw EmitEventTypeRequired
  else if negb (isObject rawEventData) then throw EmitPayloadRequired
  else emit eventType ThisTask.

(** [Object.keys(_.pick(taskTransferEventTypes, [TRANSFER_INITIATED]))
      .indexOf(eventType) > -1] *)
Definition is_transfer_initiated (eventType : value) : bool :=
  (-1 <? indexOf (keys (pick taskTransferEventTypes [TRANSFER_INITIATED])) eventType)%Z.

(** [taskTransferEventTypes[TRANSFER_INITIATED]] *)
Definition transfer_initiated_event : value :=
  match table_lookup TRANSFER_INITIATED taskTransferEventTypes with
  | Some name => VStr name
  | None => VUndefined
  end.

(** [this.transfers.outgoing && this.transfers.outgoing.sid === rawEventData.sid] *)
Definition outgoing_matches (rawEventData : value) : M bool :=
  s <- this ;;
  match outgoing (transfers s) with
  | None => ret false
  | Some held =>
      sid <- read rawEventData "sid" ;;
      ret (strictEq (transfer_sid held) sid)
  end.

(** [_emitEventForOutgoingTransfer(eventType, rawEventData)] *)
Definition _emitEventForOutgoingTransfer (eventType rawEventData : value) : M unit :=
  update (add_log (TraceEmitEventForOutgoingTransfer eventType rawEventData)) ;;;
  if negb (isString eventType) then throw OutgoingEventTypeRequired
  else if negb (isObject rawEventData) then throw OutgoingPayloadRequired
  else
    matches <- outgoing_matches rawEventData ;;
    if matches : bool then
      if is_transfer_initiated eventType then
        on_transfers (Transfers_updateOutgoing env rawEventData VUndefined) ;;;
        s <- this ;;
        emit transfer_initiated_event (OutgoingSlot (outgoing (transfers s)))
      else on_transfers (Transfers_emitEvent env eventType rawEventData)
    else update (add_log (DebugNoMatchingOutgoing rawEventData)).

(** The body of the [forEach] callback of [_update] for one field name. *)
Definition update_field (updatedTaskDescriptor : gmap string value)
    (latestTransfersData : value) (f : string) : M unit :=
  if String.eqb f "transfers" then
    incoming_data <- read latestTransfersData "incoming" ;;
    either <-
      (if truthy incoming_data then ret incoming_data
       else read latestTransfersData "outgoing") ;;
    if truthy either
    then on_transfers (Transfers_update env latestTransfersData)
    else ret tt
  else
    update (fun s =>
      set_fields (<[f := default VUndefined (updatedTaskDescriptor !! f)]> (fields s)) s).

(** The [catch] block of [_update]: [latestTaskData.sid] is read first, for
    the message that is logged and thrown. *)
Definition abort_update (latestTaskData : value) (err : error) : M unit :=
  sid <- read latestTaskData "sid" ;;
  update (add_log (ErrorUpdateFailed sid err)) ;;;
  throw (UpdateAborted sid err).

(** [_update(latestTaskData, latestTransfersData = {})] *)
Definition _update (latestTaskData latestTransfersData : value) : M unit :=
  let latestTransfersData := default_empty latestTransfersData in
  try_catch
    (s <- this ;;
     updatedTaskDescriptor <-
       of_result (TaskDescriptor env latestTaskData (field "_config" s)) ;;
     forEach fieldsToUpdate (update_field updatedTaskDescriptor latestTransfersData))
    (abort_update latestTaskData).

(** The [then] callback of complete, wrapUp, setAttributes,
    updateParticipant, kick and hold: [response => this._update(response)]. *)
Definition then_update (response : value) : M unit :=
  _update response VUndefined.

(** *** Calls *)

(** The promise a command returns: rejected from the start, or waiting for
    the request it has sent. *)
Inductive promise := Rejected (e : error) | Awaiting (req : request).

(** What the caller of a command sees when the call returns. *)
Inductive outcome := Throws (e : error) | Returns (p : promise).

(** An ordinary method throws to its caller. *)
Definition call_sync (m : M request) : t -> outcome * t :=
  fun s =>
    match m s with
    | (inl e, s') => (Throws e, s')
    | (inr req, s') => (Returns (Awaiting req), s')
    end.

(** An [async] method hands what it throws before its first [await] to the
    promise it returns. *)
Definition call_async (m : M request) : t -> outcome * t :=
  fun s =>
    match m s with
    | (inl e, s') => (Returns (Rejected e), s')
    | (inr req, s') => (Returns (Awaiting req), s')
    end.

Inductive command :=
| CallComplete (reason : value)
| CallWrapUp (options : value)
| CallSetAttributes (attributes : value)
| CallUpdateParticipant (options : value)
| CallKick (workerSid : value)
| CallHold (targetWorkerSid onHold : value)
| CallTransfer (to options : value).

Definition invoke (c : command) : t -> outcome * t :=
  match c with
  | CallComplete reason => call_sync (complete reason)
  | CallWrapUp options => call_sync (wrapUp options)
  | CallSetAttributes attributes => call_sync (setAttributes attributes)
  | CallUpdateParticipant options => call_sync (updateParticipant options)
  | CallKick workerSid => call_sync (kick workerSid)
  | CallHold targetWorkerSid onHold => call_sync (hold targetWorkerSid onHold)
  | CallTransfer to options => call_async (transfer to options)
  end.

End Methods.

(** *** The absent collaborators, from the specification *)

Module SpecModel.

(** Modelled from the spec: the wire name of each field of a Task
    descriptor ([descriptors/TaskDescriptor] is absent); the wire names are
    those of [TaskProperties]. *)
Definition wire_names : list (string * string) :=
  [ ("sid", "sid"); ("dateCreated", "date_created");
    ("attributes", "attributes"); ("status", "assignment_status");
    ("workflowSid", "workflow_sid"); ("workflowName", "workflow_name");
    ("queueSid", "queue_sid"); ("queueName", "queue_name");
    ("priority", "priority"); ("reason", "reason");
    ("routingTarget", "routing_target"); ("timeout", "timeout");
    ("taskChannelSid", "task_channel_sid");
    ("taskChannelUniqueName", "task_channel_unique_name");
    ("age", "age"); ("addOns", "addons"); ("dateUpdated", "date_updated") ].

Definition has_property (v : value) (k : string) : bool :=
  match v with
  | VObj ps => bool_decide (is_Some (assoc k ps))
  | _ => false
  end.

(** Modelled from the spec: the descriptor collaborator
    ([descriptors/TaskDescriptor] is absent), which turns a raw payload into
    the fields of a Task and throws on a malformed payload.  A payload is
    well formed when it is an object with every property of
    [TaskProperties]. *)
Definition TaskDescriptor (payload config : value) : error + gmap string value :=
  if forallb (has_property payload) TaskProperties then
    inr (list_to_map
           (map (fun fw : string * string =>
                   (fw.1, default VUndefined (getProp payload fw.2)))
                wire_names))
  else inl (DescriptorError "malformed payload").

(** Modelled from the spec: the transfer entity built from a payload
    ([core/transfer] is absent); its sid is the payload's. *)
Definition entity_of (data : value) : Transfer :=
  {| transfer_sid := default VUndefined (getProp data "sid");
     transfer_data := data |}.

(** Modelled from the spec: [applyOutgoing] ([Transfers._updateOutgoing] is
    absent), which replaces the outgoing slot with a transfer entity built
    from the payload. *)
Definition Transfers_updateOutgoing (data initiated : value) (ts : Transfers)
  : (error + unit) * Transfers :=
  (inr tt, {| incoming := incoming ts; outgoing := Some (entity_of data);
              transfer_events := transfer_events ts |}).

(** Modelled from the spec: the merge routine of the TransferSet
    ([Transfers._update] is absent), which applies the incoming and the
    outgoing sub-payload it is given to the slot of that name. *)
Definition Transfers_update (data : value) (ts : Transfers)
  : (error + unit) * Transfers :=
  let slot (k : string) (held : option Transfer) :=
    match getProp data k with
    | Some sub => if truthy sub then Some (entity_of sub) else held
    | None => held
    end in
  (inr tt, {| incoming := slot "incoming" (incoming ts);
              outgoing := slot "outgoing" (outgoing ts);
              transfer_events := transfer_events ts |}).

(** Modelled from the spec: the event-application routine of the TransferSet
    ([Transfers._emitEvent] is absent), which updates the matching transfer
    from the event and emits the domain event of that kind, scoped to the
    transfer. *)
Definition Transfers_emitEvent (eventType rawEventData : value) (ts : Transfers)
  : (error + unit) * Transfers :=
  let name :=
    match eventType with
    | VStr k =>
        match table_lookup k taskTransferEventTypes with
        | Some n => VStr n
        | None => VUndefined
        end
    | _ => VUndefined
    end in
  (inr tt,
   {| incoming := incoming ts;
      outgoing :=
        (fun held => {| transfer_sid := transfer_sid held;
                        transfer_data := rawEventData |}) <$> outgoing ts;
      transfer_events := transfer_events ts ++ [(name, rawEventData)] |}).

(** Modelled from the spec: [validateOptions] of [util/Tools] (absent),
    which accepts an options object when every key of it is a recognised
    option whose value has the required type. *)
Definition validateOptions (options : value)
    (types : list (string * (value -> bool))) : bool :=
  isObject options &&
  forallb
    (fun kv : string * value =>
       match List.find (fun t => String.eqb t.1 kv.1) types with
       | Some t => t.2 kv.2
       | None => false
       end)
    (forIn options).

Definition env : Collaborators :=
  {| Task.TaskDescriptor := TaskDescriptor;
     Task.Transfers_update := Transfers_update;
     Task.Transfers_updateOutgoing := Transfers_updateOutgoing;
     Task.Transfers_emitEvent := Transfers_emitEvent;
     Task.validateOptions := validateOptions |}.

End SpecModel.

(** *** The preconditions and options as the specification words them *)

Definition non_empty_string (v : value) : bool :=
  match v with VStr s => negb (String.eqb s "") | _ => false end.

(** An option is present in [options] when [options] has a property of that
    name. *)
Definition present (options : value) (k : string) : bool :=
  SpecModel.has_property options k.

(** The precondition column of the table of command operations. *)
Definition spec_precondition (c : command) : bool :=
  match c with
  | CallComplete reason => non_empty_string reason
  | CallWrapUp options =>
      match default_empty options with
      | VObj ps =>
          match assoc "reason" ps with Some r => isString r | None => true end
      | _ => false
      end
  | CallSetAttributes attributes => isObject attributes
  | CallUpdateParticipant options =>
      SpecModel.validateOptions options [("hold", isBoolean)]
  | CallKick workerSid => non_empty_string workerSid
  | CallHold targetWorkerSid onHold =>
      non_empty_string targetWorkerSid && isBoolean onHold
  | CallTransfer to options => non_empty_string to
  end.

(** The argument checks the methods make themselves: a call is rejected
    when an argument has the wrong type; for wrapUp, when [options.reason]
    is truthy and not a string. *)
Definition rejects (env : Collaborators) (c : command) : bool :=
  match c with
  | CallComplete reason => negb (isString reason)
  | CallWrapUp options =>
      match getProp (default_empty options) "reason" with
      | Some reason => truthy reason && negb (isString reason)
      | None => false
      end
  | CallSetAttributes attributes => negb (isObject attributes)
  | CallUpdateParticipant options =>
      negb (validateOptions env options [("hold", isBoolean)])
  | CallKick workerSid => negb (isString workerSid)
  | CallHold targetWorkerSid onHold =>
      negb (isString targetWorkerSid) || negb (isBoolean onHold)
  | CallTransfer to options => negb (isString to)
  end.

(** The error of a rejected call. *)
Definition argument_error (c : command) (s : t) : error :=
  match c with
  | CallComplete _ => CompleteReasonRequired
  | CallWrapUp _ => WrapUpReasonRequired (field "sid" s)
  | CallSetAttributes _ => SetAttributesRequired
  | CallUpdateParticipant _ => UpdateParticipantOptions (field "sid" s)
  | CallKick _ => KickWorkerSidRequired
  | CallHold targetWorkerSid _ =>
      if isString targetWorkerSid then HoldOnHoldRequired
      else HoldTargetRequired
  | CallTransfer _ _ => TransferToRequired
  end.

(** How a call that fails before its request fails: [transfer] is [async]
    and returns a rejected promise, the others throw. *)
Definition failed (c : command) (e : error) : outcome :=
  match c with
  | CallTransfer _ _ => Returns (Rejected e)
  | _ => Throws e
  end.

(** The transfers payload carries an incoming or an outgoing sub-payload: one
    of the two properties holds a truthy value (a property that is absent,
    [null], [false], 0 or the empty string carries nothing). *)
Definition carries_transfers (latestTransfersData : value) : bool :=
  match getProp latestTransfersData "incoming",
        getProp latestTransfersData "outgoing" with
  | Some i, Some o => truthy i || truthy o
  | _, _ => false
  end.

(** The fields of the fixed update set that are the Task's own. *)
Definition data_fields : list string :=
  filter (fun f => f ≠ "transfers") fieldsToUpdate.

(** Copying the named fields of a descriptor onto the Task's fields. *)
Definition copy_fields (d m : gmap string value) (fs : list string)
  : gmap string value :=
  fold_left (fun m f => <[f := default VUndefined (d !! f)]> m) fs m.

(** *** Sample data *)

Definition no_transfers : Transfers :=
  {| incoming := None; outgoing := None; transfer_events := [] |}.

(** A Task [WTxxx] obtained under reservation [WRzzz], assigned, with no
    transfer in progress. *)
Definition sample_task : t :=
  {| fields := <["status" := VStr "assigned"]>
                 (<["reservationSid" := VStr "WRzzz"]>
                    (<["sid" := VStr "WTxxx"]> ∅));
     transfers := no_transfers;
     routes := Routes.sample_routes;
     log := [];
     emitted := [] |}.

(** The same Task holding the outgoing transfer [TRaaa]. *)
Definition sample_transferring : t :=
  set_transfers
    {| incoming := None;
       outgoing := Some (SpecModel.entity_of (VObj [("sid", VStr "TRaaa")]));
       transfer_events := [] |}
    sample_task.

(** A payload of the Task [WTxxx] after it has been completed. *)
Definition sample_payload : value :=
  VObj [ ("addons", VObj []); ("age", VNum 12); ("attributes", VObj []);
         ("date_created", VNum 1500000000); ("date_updated", VNum 1500000012);
         ("priority", VNum 0); ("queue_name", VStr "Support");
         ("queue_sid", VStr "WQbbb"); ("reason", VStr "done");
         ("routing_target", VNull); ("sid", VStr "WTxxx");
         ("assignment_status", VStr "completed");
         ("task_channel_unique_name", VStr "voice");
         ("task_channel_sid", VStr "TCccc"); ("timeout", VNum 3600);
         ("workflow_name", VStr "Default"); ("workflow_sid", VStr "WWddd") ].

(** The descriptor of [sample_payload]. *)
Definition sample_descriptor : gmap string value :=
  match SpecModel.TaskDescriptor sample_payload VUndefined with
  | inr d => d
  | inl _ => ∅
  end.

(** A transfers payload that announces the incoming transfer [TRbbb]. *)
Definition sample_transfers_payload : value :=
  VObj [("incoming", VObj [("sid", VStr "TRbbb")])].

End Task.

(** ** Collaborators that fail *)

Module TaskFixtures.

Import Task.

(** Collaborators as in [SpecModel], but whose merge routine throws after
    it has cleared the incoming slot. *)
Definition failing_merge_env : Collaborators :=
  {| TaskDescriptor := SpecModel.TaskDescriptor;
     Transfers_update := fun _ ts =>
       (inl (TransfersError "merge failed"),
        {| incoming := None; outgoing := outgoing ts;
           transfer_events := transfer_events ts |});
     Transfers_updateOutgoing := SpecModel.Transfers_updateOutgoing;
     Transfers_emitEvent := SpecModel.Transfers_emitEvent;
     validateOptions := SpecModel.validateOptions |}.

End TaskFixtures.

(** * Properties of the route table *)

Module RoutesFacts.

Import Routes.

#[local] Arguments String.append !_ _ / : simpl nomatch.
#[local] Arguments Ascii.eqb : simpl never.

(** ** Strings *)

Lemma occurs_app c a b : occurs c (a +:+ b) = occurs c a || occurs c b.
Proof.
  induction a as [|d a IH]; simpl; [done|].
  rewrite IH. by rewrite orb_assoc.
Qed.

Lemma app_assoc_string (a b c : string) : (a +:+ b) +:+ c = a +:+ (b +:+ c).
Proof. induction a as [|d a IH]; simpl; [done|]. by rewrite IH. Qed.

Lemma app_empty_r (a : string) : a +:+ "" = a.
Proof. induction a as [|d a IH]; simpl; [done|]. by rewrite IH. Qed.

Lemma plain_argument_inv a :
  plain_argument a = true -> occurs "%" a = false /\ occurs "$" a = false.
Proof.
  unfold plain_argument. intros H. apply andb_true_iff in H as [H1 H2].
  split; by apply negb_true_iff.
Qed.

(** ** Replacement of the first placeholder *)

(** A replacement text without a dollar sign is inserted as it is. *)
Lemma getSubstitution_plain m b a tpl :
  occurs "$" tpl = false -> getSubstitution m b a tpl = tpl.
Proof.
  induction tpl as [|c tpl IH]; simpl; [done|].
  intros H. apply orb_false_iff in H as [Hc Ht].
  rewrite Ascii.eqb_sym, Hc. by rewrite IH.
Qed.

Lemma first_placeholder_skip c p :
  Ascii.eqb c "%" = false ->
  first_placeholder (String c p) =
    match first_placeholder p with
    | Some (pre, post) => Some (String c pre, post)
    | None => None
    end.
Proof.
  intros Hc. destruct p as [|d p]; simpl; [done|]. by rewrite Hc.
Qed.

Lemma replace_first_skip c p a :
  occurs "$" a = false ->
  Ascii.eqb c "%" = false ->
  replace_first (String c p) a = String c (replace_first p a).
Proof.
  intros Ha Hc. unfold replace_first. rewrite first_placeholder_skip by done.
  destruct (first_placeholder p) as [[pre post]|]; [|done].
  by rewrite !getSubstitution_plain.
Qed.

Lemma replace_first_here p a :
  occurs "$" a = false ->
  replace_first (String "%" (String "s" p)) a = a +:+ p.
Proof.
  intros Ha. unfold replace_first. simpl. by rewrite getSubstitution_plain.
Qed.

Lemma replace_first_app u p a :
  occurs "$" a = false ->
  occurs "%" u = false -> replace_first (u +:+ p) a = u +:+ replace_first p a.
Proof.
  intros Ha. induction u as [|c u IH]; simpl; [done|].
  intros H. apply orb_false_iff in H as [Hc Hu].
  rewrite replace_first_skip; [|done|by rewrite Ascii.eqb_sym].
  by rewrite IH.
Qed.

Lemma fold_replace_app args u p :
  Forall (fun a => plain_argument a = true) args ->
  occurs "%" u = false ->
  fold_left replace_first args (u +:+ p) = u +:+ fold_left replace_first args p.
Proof.
  intros Hargs. revert p.
  induction Hargs as [|a args Ha _ IH]; intros p Hu; simpl; [done|].
  apply plain_argument_inv in Ha as [_ Ha].
  rewrite replace_first_app by done. by apply IH.
Qed.

Lemma fold_replace_empty args : fold_left replace_first args "" = "".
Proof. induction args as [|a args IH]; simpl; done. Qed.

Lemma fold_replace_skip args c p :
  Forall (fun a => plain_argument a = true) args ->
  Ascii.eqb c "%" = false ->
  fold_left replace_first args (String c p) =
    String c (fold_left replace_first args p).
Proof.
  intros Hargs Hc. apply (fold_replace_app args (String c "") p Hargs).
  simpl. by rewrite Ascii.eqb_sym, Hc.
Qed.

(** ** The loop of [getRoute] refines left-to-right filling *)

Lemma fill_skip c p args :
  Ascii.eqb c "%" = false -> fill (String c p) args = String c (fill p args).
Proof.
  intros Hc. destruct p as [|d p]; simpl; [done|]. by rewrite Hc.
Qed.

Lemma fill_here p a args :
  fill (String "%" (String "s" p)) (a :: args) = a +:+ fill p args.
Proof. done. Qed.

Lemma fill_nil p : fill p [] = p.
Proof.
  induction p as [|c p IH]; [done|].
  destruct (Ascii.eqb c "%") eqn:Hc.
  - destruct p as [|d p]; [done|].
    change (fill (String c (String d p)) []) with
      (if Ascii.eqb c "%" && Ascii.eqb d "s" then String c (String d p)
       else String c (fill (String d p) [])).
    rewrite IH. by destruct (Ascii.eqb c "%" && Ascii.eqb d "s").
  - by rewrite fill_skip, IH.
Qed.

Lemma template_ok_cases c p :
  template_ok (String c p) = true ->
  (Ascii.eqb c "%" = false /\ template_ok p = true) \/
  (exists p', String c p = "%s" +:+ p' /\ template_ok p' = true).
Proof.
  simpl. destruct (Ascii.eqb c "%") eqn:Hc; [|by left].
  destruct p as [|d p]; [done|].
  intros H. apply andb_true_iff in H as [Hd Hp]. right. exists p.
  apply Ascii.eqb_eq in Hc, Hd. by subst.
Qed.

Lemma fold_replace_fill n : forall p args,
  String.length p <= n ->
  template_ok p = true ->
  Forall (fun a => plain_argument a = true) args ->
  fold_left replace_first args p = fill p args.
Proof.
  induction n as [|n IH]; intros p args Hn Hp Hargs.
  - destruct p; simpl in Hn; [|lia]. by rewrite fold_replace_empty.
  - destruct p as [|c p]; [by rewrite fold_replace_empty|].
    simpl in Hn.
    destruct (template_ok_cases _ _ Hp) as [[Hc Hp']|(p' & He & Hp')].
    + rewrite fold_replace_skip, fill_skip by done.
      f_equal. apply IH; [lia|done..].
    + simpl in He. injection He as -> ->.
      destruct args as [|a args]; [by rewrite fill_nil|].
      apply Forall_cons in Hargs as [Ha Hargs].
      pose proof (plain_argument_inv _ Ha) as [Ha1 Ha2].
      cbn [fold_left].
      rewrite (replace_first_here p' a), (fill_here p' a) by done.
      rewrite fold_replace_app by done. f_equal.
      apply IH; [|done..]. simpl in Hn. lia.
Qed.

(** When there are at least as many arguments as placeholders, no percent
    sign is left. *)
Lemma fill_no_percent n : forall p args,
  String.length p <= n ->
  template_ok p = true ->
  Forall (fun a => plain_argument a = true) args ->
  count_placeholders p <= length args ->
  occurs "%" (fill p args) = false.
Proof.
  induction n as [|n IH]; intros p args Hn Hp Hargs Hcount.
  - destruct p; simpl in Hn; [done|lia].
  - destruct p as [|c p]; [done|].
    simpl in Hn.
    destruct (template_ok_cases _ _ Hp) as [[Hc Hp']|(p' & He & Hp')].
    + rewrite fill_skip by done. simpl. rewrite Ascii.eqb_sym, Hc. simpl.
      apply IH; [lia|done..|].
      destruct p as [|d p]; [simpl; lia|].
      change (count_placeholders (String c (String d p))) with
        (if Ascii.eqb c "%" && Ascii.eqb d "s" then S (count_placeholders p)
         else count_placeholders (String d p)) in Hcount.
      by rewrite Hc in Hcount.
    + simpl in He. injection He as -> ->.
      change (count_placeholders (String "%" (String "s" p'))) with
        (S (count_placeholders p')) in Hcount.
      destruct args as [|a args]; [simpl in Hcount; lia|].
      apply Forall_cons in Hargs as [Ha Hargs].
      pose proof (plain_argument_inv _ Ha) as [Ha1 Ha2].
      rewrite (fill_here p' a), occurs_app, Ha1. simpl.
      apply IH; [simpl in Hn; lia|done..|simpl in Hcount; lia].
Qed.

Lemma no_percent_no_placeholder p :
  occurs "%" p = false -> count_placeholders p = 0.
Proof.
  induction p as [|c p IH]; [done|].
  simpl. intros H. apply orb_false_iff in H as [Hc Hp].
  destruct p as [|d p]; [done|].
  rewrite Ascii.eqb_sym, Hc. simpl. by apply IH.
Qed.



(** ** [path.join] on plain segments *)

Lemma plain_segment_inv s :
  plain_segment s = true ->
  s <> "" /\ s <> "." /\ s <> ".." /\ occurs "/" s = false.
Proof.
  unfold plain_segment. rewrite !andb_true_iff, !negb_true_iff.
  intros [[[H1 H2] H3] H4]. by rewrite !String.eqb_neq in *.
Qed.

Lemma split_slash_plain s : occurs "/" s = false -> split_slash s = [s].
Proof.
  induction s as [|c s IH]; simpl; [done|].
  intros H. apply orb_false_iff in H as [Hc Hs].
  rewrite Ascii.eqb_sym, Hc. by rewrite IH.
Qed.

Lemma split_slash_app s rest :
  occurs "/" s = false ->
  split_slash (s +:+ String "/" rest) = s :: split_slash rest.
Proof.
  induction s as [|c s IH]; simpl; [done|].
  intros H. apply orb_false_iff in H as [Hc Hs].
  rewrite Ascii.eqb_sym, Hc. by rewrite IH.
Qed.

Lemma split_join segs :
  Forall (fun s => plain_segment s = true) segs -> segs <> [] ->
  split_slash (join_slash segs) = segs.
Proof.
  induction 1 as [|s segs Hs Hsegs IH]; [done|]. intros _.
  apply plain_segment_inv in Hs as (_ & _ & _ & Hs).
  destruct segs as [|s' segs]; simpl.
  - by apply split_slash_plain.
  - rewrite split_slash_app by done. f_equal. by apply IH.
Qed.

Lemma normalize_segments_plain above acc segs :
  Forall (fun s => plain_segment s = true) segs ->
  normalize_segments above acc segs = (rev acc ++ segs)%list.
Proof.
  intros H. revert acc. induction H as [|s segs Hs _ IH]; intros acc; simpl.
  - by rewrite app_nil_r.
  - apply plain_segment_inv in Hs as (H1 & H2 & H3 & _).
    apply String.eqb_neq in H1, H2, H3. rewrite H1, H2, H3. simpl.
    rewrite IH. simpl. by rewrite <- app_assoc.
Qed.

Lemma ends_with_slash_occurs s : ends_with_slash s = true -> occurs "/" s = true.
Proof.
  induction s as [|c s IH]; [done|].
  destruct s as [|d s].
  - simpl. intros H. by rewrite Ascii.eqb_sym, H.
  - intros H. change (occurs "/" (String c (String d s))) with
      (Ascii.eqb "/" c || occurs "/" (String d s)).
    rewrite IH by done. by rewrite orb_true_r.
Qed.

Lemma ends_with_slash_app a b : b <> "" -> ends_with_slash (a +:+ b) = ends_with_slash b.
Proof.
  intros Hb. induction a as [|c a IH]; [done|].
  simpl. destruct (a +:+ b) eqn:E; [|done].
  destruct a; [|done]. simpl in E. by subst.
Qed.

Lemma join_slash_shape segs :
  Forall (fun s => plain_segment s = true) segs -> segs <> [] ->
  join_slash segs <> "" /\ starts_with_slash (join_slash segs) = false
  /\ ends_with_slash (join_slash segs) = false.
Proof.
  induction 1 as [|s segs Hs Hsegs IH]; [done|]. intros _.
  apply plain_segment_inv in Hs as (Hne & _ & _ & Hs).
  assert (ends_with_slash s = false) as Hend.
  { destruct (ends_with_slash s) eqn:E; [|done].
    apply ends_with_slash_occurs in E. congruence. }
  destruct s as [|c s]; [done|].
  simpl in Hs. apply orb_false_iff in Hs as [Hc Hs].
  destruct segs as [|s' segs].
  - simpl join_slash. split; [done|]. split; [|done].
    simpl. by rewrite Ascii.eqb_sym.
  - destruct IH as (IH1 & _ & IH3); [done|].
    change (join_slash (String c s :: s' :: segs)) with
      (String c s +:+ "/" +:+ join_slash (s' :: segs)).
    split; [done|]. split; [simpl; by rewrite Ascii.eqb_sym|].
    rewrite ends_with_slash_app.
    + rewrite (ends_with_slash_app "/"); done.
    + done.
Qed.

Lemma path_join_plain segs :
  Forall (fun s => plain_segment s = true) segs -> segs <> [] ->
  path_join segs = join_slash segs.
Proof.
  intros Hsegs Hne. unfold path_join.
  assert (filter (fun s : string => s ≠ "") segs = segs) as ->.
  { clear Hne. induction Hsegs as [|s segs Hs _ IH]; [done|].
    apply plain_segment_inv in Hs as (Hs & _).
    rewrite filter_cons_True by done. by rewrite IH. }
  destruct (join_slash_shape segs Hsegs Hne) as (H1 & H2 & H3).
  apply String.eqb_neq in H1. rewrite H1.
  unfold normalize. rewrite H1, H2, H3. simpl negb.
  rewrite split_join, normalize_segments_plain by done. simpl rev.
  simpl app. by rewrite H1.
Qed.

(** ** The registered templates *)

Lemma template_ok_app u p :
  occurs "%" u = false -> template_ok (u +:+ p) = template_ok p.
Proof.
  induction u as [|c u IH]; simpl; [done|].
  intros H. apply orb_false_iff in H as [Hc Hu].
  rewrite Ascii.eqb_sym, Hc. by apply IH.
Qed.

Lemma plain_sid_segment_ok s : plain_sid s = true -> segment_ok s = true.
Proof.
  unfold plain_sid, segment_ok. intros H.
  apply andb_true_iff in H as [-> ->]. done.
Qed.

Lemma template_ok_join segs :
  forallb segment_ok segs = true -> template_ok (join_slash segs) = true.
Proof.
  induction segs as [|s segs IH]; [done|].
  cbn [forallb]. intros H. apply andb_true_iff in H as [Hs Hsegs].
  specialize (IH Hsegs).
  unfold segment_ok in Hs. apply andb_true_iff in Hs as [_ Hs].
  apply orb_true_iff in Hs as [Hs|Hs].
  - apply negb_true_iff in Hs.
    destruct segs as [|s' segs].
    + simpl. rewrite <- (app_empty_r s). by rewrite template_ok_app.
    + change (join_slash (s :: s' :: segs)) with
        (s +:+ "/" +:+ join_slash (s' :: segs)).
      rewrite template_ok_app by done. by rewrite (template_ok_app "/").
  - apply String.eqb_eq in Hs as ->.
    destruct segs as [|s' segs]; [done|].
    change (join_slash ("%s" :: s' :: segs)) with
      ("%s" +:+ "/" +:+ join_slash (s' :: segs)).
    simpl. done.
Qed.

Lemma forallb_segment_ok_plain segs :
  forallb segment_ok segs = true ->
  Forall (fun s => plain_segment s = true) segs.
Proof.
  intros H. apply Forall_forall. intros s Hs.
  rewrite forallb_forall in H. apply list_elem_of_In in Hs. specialize (H s Hs).
  unfold segment_ok in H. by apply andb_true_iff in H as [H _].
Qed.

Lemma path_join_template segs :
  segs <> [] -> forallb segment_ok segs = true ->
  template_ok (path_join segs) = true.
Proof.
  intros Hne H.
  rewrite path_join_plain by (done || by apply forallb_segment_ok_plain).
  by apply template_ok_join.
Qed.

Lemma registered_template ws wk name registered :
  plain_sid ws = true -> plain_sid wk = true ->
  (name, registered) ∈ route_table ws wk ->
  template_ok (path registered) = true.
Proof.
  intros Hws%plain_sid_segment_ok Hwk%plain_sid_segment_ok Hin.
  unfold route_table in Hin.
  repeat (apply elem_of_cons in Hin as [Hin|Hin];
          [ injection Hin as _ ->; cbn [path];
            apply path_join_template; [done|];
            cbn [forallb]; rewrite ?Hws, ?Hwk; reflexivity | ]).
  by apply elem_of_nil in Hin.
Qed.

Lemma new_routes ws wk r :
  new ws wk = inr r -> routes r = list_to_map (route_table ws wk).
Proof.
  unfold new. destruct (String.eqb ws "" || String.eqb wk ""); [done|].
  by intros [= <-].
Qed.

Lemma getRoute_some r name registered a args :
  routes r !! name = Some registered ->
  getRoute r name (a :: args) =
    if (length (a :: args) =? count_placeholders (path registered))%nat
    then inr {| path := fold_left replace_first (a :: args) (path registered) |}
    else inl (InvalidArgCount name).
Proof.
  intros Hr. unfold getRoute. rewrite Hr.
  by destruct (length (a :: args) =? count_placeholders (path registered))%nat.
Qed.

(** ** Resolution of registered routes *)

(** C8, as amended.  For a registered route whose template has N
    placeholders: with no argument the route is returned as registered,
    unchecked.  With one or more arguments, resolution succeeds exactly when
    their number is N: a number of them other than N fails with the error
    for the number of positional arguments, and N of them, whatever they
    are, give the template after one replacement per argument, in order.
    When the table was built for sids that are plain path segments without
    a percent sign and no argument has a percent or a dollar sign, that path
    is the template filled left to right, one placeholder per argument, with
    no placeholder left. *)
Theorem getRoute_resolves ws wk r name registered args :
  new ws wk = inr r ->
  routes r !! name = Some registered ->
  (args = [] -> getRoute r name args = inr registered) /\
  (args <> [] -> length args <> count_placeholders (path registered) ->
   getRoute r name args = inl (InvalidArgCount name)) /\
  (args <> [] -> length args = count_placeholders (path registered) ->
   getRoute r name args =
     inr {| path := fold_left replace_first args (path registered) |}) /\
  (plain_sid ws = true -> plain_sid wk = true ->
   args <> [] -> length args = count_placeholders (path registered) ->
   Forall (fun a => plain_argument a = true) args ->
   getRoute r name args = inr {| path := fill (path registered) args |} /\
   count_placeholders (fill (path registered) args) = 0).
Proof.
  intros Hnew Hr.
  split; [|split; [|split]].
  - intros ->. unfold getRoute. by rewrite Hr.
  - intros Hne Hlen. destruct args as [|a args]; [done|].
    rewrite (getRoute_some _ _ _ _ _ Hr).
    apply Nat.eqb_neq in Hlen. by rewrite Hlen.
  - intros Hne Hlen. destruct args as [|a args]; [done|].
    rewrite (getRoute_some _ _ _ _ _ Hr).
    by rewrite Hlen, Nat.eqb_refl.
  - intros Hws Hwk Hne Hlen Hplain.
    assert (template_ok (path registered) = true) as Hok.
    { apply (registered_template ws wk name); [done..|].
      rewrite (new_routes _ _ _ Hnew) in Hr.
      by apply elem_of_list_to_map_2. }
    destruct args as [|a args]; [done|].
    rewrite (getRoute_some _ _ _ _ _ Hr).
    rewrite Hlen, Nat.eqb_refl.
    rewrite (fold_replace_fill (String.length (path registered))) by done.
    split; [done|].
    apply no_percent_no_placeholder.
    apply (fill_no_percent (String.length (path registered))); [done..|lia].
Qed.

Lemma getRoute_resolves_witness :
  (new "WSxxx" "WKyyy" = inr sample_routes /\
   routes sample_routes !! TASK_RESERVATION_INSTANCE =
     Some {| path := "Workspaces/WSxxx/Tasks/%s/Reservations/%s" |}) /\
  getRoute sample_routes TASK_RESERVATION_INSTANCE ["WTxxx"; "WRzzz"] =
    inr {| path := "Workspaces/WSxxx/Tasks/WTxxx/Reservations/WRzzz" |} /\
  getRoute sample_routes TASK_RESERVATION_INSTANCE ["WTxxx"] =
    inl (InvalidArgCount TASK_RESERVATION_INSTANCE) /\
  getRoute sample_routes TASK_RESERVATION_INSTANCE ["$'"; "%s"] =
    inr {| path := "Workspaces/WSxxx/Tasks//Reservations/%s/Reservations/%s" |}.
Proof.
  assert (new "WSxxx" "WKyyy" = inr sample_routes) as H3 by reflexivity.
  assert (routes sample_routes !! TASK_RESERVATION_INSTANCE =
            Some {| path := "Workspaces/WSxxx/Tasks/%s/Reservations/%s" |})
    as H4 by (vm_compute; reflexivity).
  split; [done|]. split; [|split].
  - destruct (getRoute_resolves "WSxxx" "WKyyy" sample_routes
                TASK_RESERVATION_INSTANCE _ ["WTxxx"; "WRzzz"] H3 H4)
      as (_ & _ & _ & H).
    destruct H as [H _]; [reflexivity|reflexivity|done|reflexivity|
                          by repeat constructor|].
    exact H.
  - destruct (getRoute_resolves "WSxxx" "WKyyy" sample_routes
                TASK_RESERVATION_INSTANCE _ ["WTxxx"] H3 H4)
      as (_ & H & _).
    apply H; [done|]. vm_compute. lia.
  - destruct (getRoute_resolves "WSxxx" "WKyyy" sample_routes
                TASK_RESERVATION_INSTANCE _ ["$'"; "%s"] H3 H4)
      as (_ & _ & H & _).
    rewrite H; [reflexivity|done|reflexivity].
Defined.

(** C8 as stated fails: [taskInstance] has one placeholder, and resolved with
    no argument it does not fail, it returns the template with the placeholder
    in it; and an argument that is itself a placeholder is not consumed one
    per placeholder. *)
Lemma getRoute_counterexample :
  new "WSxxx" "WKyyy" = inr sample_routes /\
  routes sample_routes !! TASK_INSTANCE = Some {| path := "Workspaces/WSxxx/Tasks/%s" |} /\
  count_placeholders "Workspaces/WSxxx/Tasks/%s" = 1 /\
  getRoute sample_routes TASK_INSTANCE [] = inr {| path := "Workspaces/WSxxx/Tasks/%s" |} /\
  getRoute sample_routes TASK_RESERVATION_INSTANCE ["%s"; "WRzzz"] =
    inr {| path := "Workspaces/WSxxx/Tasks/WRzzz/Reservations/%s" |}.
Proof. repeat split; vm_compute; reflexivity. Qed.

End RoutesFacts.
(** * Properties of the Task *)

Module TaskFacts.

Import Task.

(** ** Copying descriptor fields *)

Lemma lookup_copy_fields (d : gmap string value) fs : forall (m : gmap string value) f,
  copy_fields d m fs !! f =
    if bool_decide (f ∈ fs) then Some (default VUndefined (d !! f)) else m !! f.
Proof.
  induction fs as [|x fs IH]; intros m f; [done|].
  unfold copy_fields in *. cbn [fold_left]. rewrite IH.
  destruct (decide (f ∈ fs)) as [Hin|Hin].
  - rewrite !bool_decide_eq_true_2; [done| |done]. by apply elem_of_cons; right.
  - rewrite (bool_decide_eq_false_2 (f ∈ fs)) by done.
    destruct (decide (f = x)) as [->|Hne].
    + rewrite lookup_insert_eq.
      rewrite bool_decide_eq_true_2; [done|]. by apply elem_of_cons; left.
    + rewrite lookup_insert_ne by done.
      rewrite bool_decide_eq_false_2; [done|].
      intros [?|?]%elem_of_cons; done.
Qed.

Lemma copy_fields_idem (d m : gmap string value) fs :
  copy_fields d (copy_fields d m fs) fs = copy_fields d m fs.
Proof.
  apply map_eq. intros f. rewrite !lookup_copy_fields.
  by destruct (bool_decide (f ∈ fs)).
Qed.

Lemma fieldsToUpdate_split : fieldsToUpdate = (data_fields ++ ["transfers"])%list.
Proof. reflexivity. Qed.

Lemma set_fields_id s : set_fields (fields s) s = s.
Proof. by destruct s. Qed.

Lemma transfers_not_data : "transfers" ∉ data_fields.
Proof. apply (bool_decide_unpack _). by vm_compute. Qed.

(** ** Running [forEach] *)

Lemma forEach_app {A} (xs ys : list A) (f : A -> M unit) s :
  forEach (xs ++ ys) f s = bind (forEach xs f) (fun _ => forEach ys f) s.
Proof.
  revert s. induction xs as [|x xs IH]; intros s; [done|].
  cbn [forEach app]. unfold bind in *.
  destruct (f x s) as [[e|[]] s']; [done|]. apply IH.
Qed.

Section Update.

Variable env : Collaborators.

Lemma forEach_data d td fs : forall s,
  "transfers" ∉ fs ->
  forEach fs (update_field env d td) s =
    (inr tt, set_fields (copy_fields d (fields s) fs) s).
Proof.
  induction fs as [|x fs IH]; intros s Hfs.
  - by destruct s.
  - apply not_elem_of_cons in Hfs as [Hx Hfs].
    cbn [forEach]. unfold bind, update_field.
    assert (String.eqb x "transfers" = false) as ->.
    { apply String.eqb_neq. congruence. }
    unfold update. rewrite IH by done. done.
Qed.

Lemma getProp_total v k k' a :
  getProp v k = Some a -> exists b, getProp v k' = Some b.
Proof. destruct v; simpl; intros [= <-]; eauto. Qed.

Lemma transfers_step d td s :
  update_field env d td "transfers" s =
    match getProp td "incoming" with
    | None => (inl NullDereference, s)
    | Some _ =>
        if carries_transfers td then on_transfers (Transfers_update env td) s
        else (inr tt, s)
    end.
Proof.
  unfold update_field, carries_transfers, read, bind. cbn [String.eqb Ascii.eqb Bool.eqb].
  destruct (getProp td "incoming") as [i|] eqn:Hi; [|done].
  destruct (getProp_total _ _ "outgoing" _ Hi) as [o Ho]. rewrite Ho.
  unfold ret. destruct (truthy i) eqn:Hti; simpl; rewrite ?Hti; [done|].
  by destruct (truthy o).
Qed.

(** What [_update] does, case by case. *)
Lemma _update_run payload td s :
  _update env payload td s =
    match TaskDescriptor env payload (field "_config" s) with
    | inl e => abort_update payload e s
    | inr d =>
        let s1 := set_fields (copy_fields d (fields s) data_fields) s in
        let td' := default_empty td in
        match getProp td' "incoming" with
        | None => abort_update payload NullDereference s1
        | Some _ =>
            if carries_transfers td' then
              match Transfers_update env td' (transfers s) with
              | (inr _, ts) => (inr tt, set_transfers ts s1)
              | (inl e, ts) => abort_update payload e (set_transfers ts s1)
              end
            else (inr tt, s1)
        end
    end.
Proof.
  unfold _update, try_catch. unfold bind at 1. unfold this.
  unfold bind at 1.
  destruct (TaskDescriptor env payload (field "_config" s)) as [e|d]; [done|].
  cbn [of_result ret]. rewrite fieldsToUpdate_split, forEach_app.
  unfold bind at 1. rewrite forEach_data by apply transfers_not_data.
  cbn [forEach]. unfold bind at 1. rewrite transfers_step.
  cbv zeta.
  destruct (getProp (default_empty td) "incoming"); [|done].
  destruct (carries_transfers (default_empty td)); [|done].
  unfold on_transfers. cbn [transfers set_fields].
  by destruct (Transfers_update env (default_empty td) (transfers s)) as [[?|[]] ?].
Qed.

Lemma abort_update_run payload e s :
  abort_update payload e s =
    match getProp payload "sid" with
    | Some sid => (inl (UpdateAborted sid e), add_log (ErrorUpdateFailed sid e) s)
    | None => (inl NullDereference, s)
    end.
Proof.
  unfold abort_update, bind, read. by destruct (getProp payload "sid").
Qed.

Lemma abort_update_frame payload e s :
  fields (abort_update payload e s).2 = fields s /\
  transfers (abort_update payload e s).2 = transfers s /\
  emitted (abort_update payload e s).2 = emitted s /\
  routes (abort_update payload e s).2 = routes s.
Proof. rewrite abort_update_run. by destruct (getProp payload "sid"). Qed.

Lemma _update_fields payload td s d :
  TaskDescriptor env payload (field "_config" s) = inr d ->
  fields (_update env payload td s).2 = copy_fields d (fields s) data_fields.
Proof.
  intros Hd. rewrite _update_run, Hd. cbv zeta.
  destruct (getProp (default_empty td) "incoming").
  - destruct (carries_transfers (default_empty td)); [|done].
    destruct (Transfers_update env (default_empty td) (transfers s)) as [[e|[]] ts];
      [|done].
    by destruct (abort_update_frame payload e
      (set_transfers ts (set_fields (copy_fields d (fields s) data_fields) s)))
      as (-> & _).
  - by destruct (abort_update_frame payload NullDereference
      (set_fields (copy_fields d (fields s) data_fields) s)) as (-> & _).
Qed.

Lemma _update_transfers payload td s d :
  TaskDescriptor env payload (field "_config" s) = inr d ->
  transfers (_update env payload td s).2 =
    if carries_transfers (default_empty td)
    then (Transfers_update env (default_empty td) (transfers s)).2
    else transfers s.
Proof.
  intros Hd. rewrite _update_run, Hd. cbv zeta.
  destruct (getProp (default_empty td) "incoming") eqn:Hi.
  - destruct (carries_transfers (default_empty td)); [|done].
    destruct (Transfers_update env (default_empty td) (transfers s)) as [[e|[]] ts];
      [|done].
    by destruct (abort_update_frame payload e
      (set_transfers ts (set_fields (copy_fields d (fields s) data_fields) s)))
      as (_ & -> & _).
  - unfold carries_transfers. rewrite Hi.
    by destruct (abort_update_frame payload NullDereference
      (set_fields (copy_fields d (fields s) data_fields) s)) as (_ & -> & _).
Qed.

End Update.

(** ** Reconciliation *)

Lemma data_fields_list :
  data_fields =
    [ "attributes"; "status"; "workflowSid"; "workflowName"; "queueSid";
      "queueName"; "priority"; "reason"; "routingTarget"; "timeout";
      "taskChannelSid"; "taskChannelUniqueName"; "age"; "addOns";
      "dateUpdated" ].
Proof. reflexivity. Qed.

(** C1.  For a payload that parses into a descriptor, [_update] sets each of
    the fifteen fields of the update set (attributes, status, workflow sid
    and name, queue sid and name, priority, reason, routing target, timeout,
    channel sid and unique name, age, add-ons, date updated) to the
    descriptor's value whatever it held before and leaves every other field
    alone; applied a second time in succession it leaves every field as the
    first application left it, and, called as the commands call it, the
    whole Task. *)
Theorem update_overwrites_and_is_idempotent env payload td s d :
  TaskDescriptor env payload (field "_config" s) = inr d ->
  let updated :=
    [ "attributes"; "status"; "workflowSid"; "workflowName"; "queueSid";
      "queueName"; "priority"; "reason"; "routingTarget"; "timeout";
      "taskChannelSid"; "taskChannelUniqueName"; "age"; "addOns";
      "dateUpdated" ] in
  let s1 := (_update env payload td s).2 in
  let s2 := (_update env payload td s1).2 in
  (forall f, f ∈ updated -> field f s1 = default VUndefined (d !! f)) /\
  (forall f, f ∉ updated -> field f s1 = field f s) /\
  fields s2 = fields s1 /\
  (td = VUndefined ->
   _update env payload td s = (inr tt, s1) /\
   _update env payload td s1 = (inr tt, s1)).
Proof.
  intros Hd updated s1 s2. unfold updated. rewrite <- data_fields_list.
  assert (fields s1 = copy_fields d (fields s) data_fields) as Hs1
    by by apply _update_fields.
  assert (field "_config" s1 = field "_config" s) as Hcfg.
  { unfold field. rewrite Hs1, lookup_copy_fields. done. }
  assert (fields s2 = fields s1) as Hs2.
  { unfold s2. rewrite (_update_fields env payload td s1 d) by by rewrite Hcfg.
    rewrite Hs1. apply copy_fields_idem. }
  split; [|split; [|split]].
  - intros f Hf. unfold field. rewrite Hs1, lookup_copy_fields.
    by rewrite bool_decide_eq_true_2.
  - intros f Hf. unfold field. rewrite Hs1, lookup_copy_fields.
    by rewrite bool_decide_eq_false_2.
  - done.
  - intros ->.
    assert (_update env payload VUndefined s = (inr tt, s1)) as H1.
    { unfold s1. rewrite _update_run, Hd. done. }
    split; [done|].
    rewrite _update_run, Hcfg, Hd.
    transitivity
      (@inr error unit tt,
       set_fields (copy_fields d (fields s1) data_fields) s1); [done|].
    rewrite Hs1, copy_fields_idem, <- Hs1. f_equal. apply set_fields_id.
Qed.

Lemma update_idempotent_witness :
  TaskDescriptor SpecModel.env sample_payload (field "_config" sample_task) =
    inr sample_descriptor /\
  field "status" (_update SpecModel.env sample_payload VUndefined sample_task).2 =
    VStr "completed" /\
  field "age" (_update SpecModel.env sample_payload VUndefined sample_task).2 =
    VNum 12 /\
  field "queueName"
    (_update SpecModel.env sample_payload VUndefined sample_task).2 =
    VStr "Support" /\
  field "reservationSid"
    (_update SpecModel.env sample_payload VUndefined sample_task).2 =
    VStr "WRzzz".
Proof.
  assert (TaskDescriptor SpecModel.env sample_payload (field "_config" sample_task) =
            inr sample_descriptor) as H by (vm_compute; reflexivity).
  split; [exact H|].
  destruct (update_overwrites_and_is_idempotent SpecModel.env sample_payload
              VUndefined sample_task sample_descriptor H) as (H1 & H2 & _).
  rewrite (H1 "status"), (H1 "age"), (H1 "queueName"), (H2 "reservationSid").
  - repeat split; vm_compute; reflexivity.
  - apply (bool_decide_unpack _). vm_compute. exact I.
  - apply (bool_decide_unpack _). vm_compute. exact I.
  - apply (bool_decide_unpack _). vm_compute. exact I.
  - apply (bool_decide_unpack _). vm_compute. exact I.
Defined.

(** C3, as amended.  When the payload does not parse, [_update] changes no
    field, no transfer and emits nothing; and when the payload is not
    [null] or [undefined], so that its sid can be read, the error thrown is
    the update-aborted error with that sid and the parse error, the same two
    having been logged. *)
Theorem update_parse_failure env payload td s e :
  TaskDescriptor env payload (field "_config" s) = inl e ->
  let r := _update env payload td s in
  (exists err, r.1 = inl err) /\
  fields r.2 = fields s /\ transfers r.2 = transfers s /\
  emitted r.2 = emitted s /\
  (forall sid, getProp payload "sid" = Some sid ->
     r = (inl (UpdateAborted sid e), add_log (ErrorUpdateFailed sid e) s)).
Proof.
  intros He r. unfold r. rewrite _update_run, He, abort_update_run.
  destruct (getProp payload "sid") as [sid|].
  - repeat split; eauto. by intros ? [= <-].
  - repeat split; eauto. done.
Qed.

Lemma update_parse_failure_witness :
  TaskDescriptor SpecModel.env (VObj [("sid", VStr "WTxxx")])
      (field "_config" sample_task) =
    inl (DescriptorError "malformed payload") /\
  _update SpecModel.env (VObj [("sid", VStr "WTxxx")]) VUndefined sample_task =
    (inl (UpdateAborted (VStr "WTxxx") (DescriptorError "malformed payload")),
     add_log (ErrorUpdateFailed (VStr "WTxxx")
                (DescriptorError "malformed payload")) sample_task).
Proof.
  assert (TaskDescriptor SpecModel.env (VObj [("sid", VStr "WTxxx")])
            (field "_config" sample_task) =
          inl (DescriptorError "malformed payload")) as H
    by (vm_compute; reflexivity).
  split; [exact H|].
  destruct (update_parse_failure SpecModel.env _ VUndefined sample_task _ H)
    as (_ & _ & _ & _ & H').
  apply H'. reflexivity.
Defined.

(** C3 as stated fails for the payload [null]: it does not parse, and what
    [_update] throws is the TypeError of reading [sid] from [null], which
    names neither a sid nor the parse error. *)
Lemma update_parse_failure_counterexample :
  TaskDescriptor SpecModel.env VNull (field "_config" sample_task) =
    inl (DescriptorError "malformed payload") /\
  _update SpecModel.env VNull VUndefined sample_task = (inl NullDereference, sample_task).
Proof. split; vm_compute; reflexivity. Qed.

(** C4, as amended.  For a call whose payload parses, the fields are
    updated, and the transfers are what the merge routine makes of them when
    the transfers payload carries an incoming or an outgoing sub-payload, and
    are left as they were when it carries neither. *)
Theorem update_transfers_frame env payload td s d :
  TaskDescriptor env payload (field "_config" s) = inr d ->
  let r := _update env payload td s in
  fields r.2 = copy_fields d (fields s) data_fields /\
  (carries_transfers (default_empty td) = true ->
   transfers r.2 = (Transfers_update env (default_empty td) (transfers s)).2) /\
  (carries_transfers (default_empty td) = false ->
   transfers r.2 = transfers s) /\
  carries_transfers (default_empty VUndefined) = false.
Proof.
  intros Hd r. unfold r. split; [by apply _update_fields|].
  rewrite (_update_transfers env payload td s d Hd).
  repeat split; by intros ->.
Qed.

Lemma update_transfers_frame_witness :
  TaskDescriptor SpecModel.env sample_payload (field "_config" sample_task) =
    inr sample_descriptor /\
  transfers (_update SpecModel.env sample_payload VUndefined sample_task).2 =
    transfers sample_task /\
  incoming
    (transfers
       (_update SpecModel.env sample_payload sample_transfers_payload sample_task).2) =
    Some (SpecModel.entity_of (VObj [("sid", VStr "TRbbb")])).
Proof.
  assert (TaskDescriptor SpecModel.env sample_payload (field "_config" sample_task) =
            inr sample_descriptor) as H by (vm_compute; reflexivity).
  split; [exact H|]. split.
  - destruct (update_transfers_frame SpecModel.env sample_payload VUndefined
                sample_task sample_descriptor H) as (_ & _ & H' & _).
    apply H'. reflexivity.
  - destruct (update_transfers_frame SpecModel.env sample_payload
                sample_transfers_payload sample_task sample_descriptor H)
      as (_ & H' & _).
    rewrite H' by reflexivity. reflexivity.
Defined.

(** C4 as stated fails for a call whose payload does not parse: the
    transfers payload carries an incoming sub-payload, which the merge routine
    would put in the incoming slot, and the transfers are left as they
    were. *)
Lemma update_transfers_counterexample :
  carries_transfers (default_empty sample_transfers_payload) = true /\
  incoming
    (Transfers_update SpecModel.env sample_transfers_payload (transfers sample_task)).2 =
    Some (SpecModel.entity_of (VObj [("sid", VStr "TRbbb")])) /\
  (exists err,
     (_update SpecModel.env (VObj [("sid", VStr "WTxxx")])
        sample_transfers_payload sample_task).1 = inl err) /\
  transfers
    (_update SpecModel.env (VObj [("sid", VStr "WTxxx")])
       sample_transfers_payload sample_task).2 = transfers sample_task /\
  fields
    (_update SpecModel.env (VObj [("sid", VStr "WTxxx")])
       sample_transfers_payload sample_task).2 = fields sample_task.
Proof.
  repeat split; try (vm_compute; reflexivity).
  eexists. vm_compute. reflexivity.
Qed.

(** ** Events *)

Lemma isObject_getProp raw k :
  isObject raw = true -> exists v, getProp raw k = Some v.
Proof. destruct raw; try done; simpl; eauto. Qed.

Lemma is_transfer_initiated_eq et :
  is_transfer_initiated et = strictEq (VStr TRANSFER_INITIATED) et.
Proof.
  unfold is_transfer_initiated.
  change (keys (pick taskTransferEventTypes [TRANSFER_INITIATED]))
    with [TRANSFER_INITIATED].
  cbn [indexOf]. by destruct (strictEq (VStr TRANSFER_INITIATED) et).
Qed.

Lemma is_transfer_initiated_iff et :
  is_transfer_initiated et = true <-> et = VStr TRANSFER_INITIATED.
Proof.
  rewrite is_transfer_initiated_eq. split.
  - destruct et as [| | | |x| |]; try done.
    unfold strictEq. by intros <-%String.eqb_eq.
  - intros ->. reflexivity.
Qed.

(** What [_emitEventForOutgoingTransfer] does with a well-formed event. *)
Lemma outgoing_event_run env et raw s sid :
  isString et = true -> isObject raw = true ->
  getProp raw "sid" = Some sid ->
  let s0 := add_log (TraceEmitEventForOutgoingTransfer et raw) s in
  _emitEventForOutgoingTransfer env et raw s =
    match outgoing (transfers s) with
    | Some held =>
        if strictEq (transfer_sid held) sid then
          if is_transfer_initiated et then
            match Transfers_updateOutgoing env raw VUndefined (transfers s) with
            | (inr _, ts) =>
                (inr tt,
                 add_emitted transfer_initiated_event (OutgoingSlot (outgoing ts))
                   (set_transfers ts s0))
            | (inl e, ts) => (inl e, set_transfers ts s0)
            end
          else on_transfers (Transfers_emitEvent env et raw) s0
        else (inr tt, add_log (DebugNoMatchingOutgoing raw) s0)
    | None => (inr tt, add_log (DebugNoMatchingOutgoing raw) s0)
    end.
Proof.
  intros Het Hraw Hsid s0.
  unfold _emitEventForOutgoingTransfer. unfold bind at 1. unfold update at 1.
  rewrite Het, Hraw. cbn [negb].
  unfold bind at 1. unfold outgoing_matches, bind at 1, this at 1.
  cbn [transfers add_log]. fold s0.
  destruct (outgoing (transfers s)) as [held|]; [|done].
  unfold read. rewrite Hsid. unfold bind at 1. cbn [ret].
  destruct (strictEq (transfer_sid held) sid); [|done].
  destruct (is_transfer_initiated et); [|done].
  unfold bind, on_transfers. cbn [transfers add_log]. fold s0.
  change (transfers s0) with (transfers s).
  by destruct (Transfers_updateOutgoing env raw VUndefined (transfers s))
    as [[e|[]] ts].
Qed.

(** C2.  A well-formed outgoing-transfer event whose sid is not the sid of
    the outgoing transfer that is held changes no field, no transfer and
    emits nothing, and does not throw: the two log entries are all it
    leaves. *)
Theorem mismatched_transfer_event_dropped env et raw s held sid :
  isString et = true -> isObject raw = true ->
  outgoing (transfers s) = Some held ->
  getProp raw "sid" = Some sid ->
  strictEq (transfer_sid held) sid = false ->
  _emitEventForOutgoingTransfer env et raw s =
    (inr tt,
     {| fields := fields s; transfers := transfers s; routes := routes s;
        log := log s ++ [TraceEmitEventForOutgoingTransfer et raw;
                         DebugNoMatchingOutgoing raw];
        emitted := emitted s |}).
Proof.
  intros Het Hraw Hheld Hsid Hne.
  rewrite (outgoing_event_run env et raw s sid) by done.
  rewrite Hheld, Hne. unfold add_log. cbn. by rewrite <- app_assoc.
Qed.

Lemma mismatched_transfer_event_witness :
  let raw := VObj [("sid", VStr "TRbbb")] in
  (isString (VStr "transfer-failed") = true /\ isObject raw = true /\
   outgoing (transfers sample_transferring) =
     Some (SpecModel.entity_of (VObj [("sid", VStr "TRaaa")])) /\
   getProp raw "sid" = Some (VStr "TRbbb") /\
   strictEq (VStr "TRaaa") (VStr "TRbbb") = false) /\
  (_emitEventForOutgoingTransfer SpecModel.env (VStr "transfer-failed") raw
     sample_transferring).2.(transfers) = transfers sample_transferring.
Proof.
  intros raw. split; [by repeat split|].
  rewrite (mismatched_transfer_event_dropped SpecModel.env
             (VStr "transfer-failed") raw sample_transferring
             (SpecModel.entity_of (VObj [("sid", VStr "TRaaa")]))
             (VStr "TRbbb")); reflexivity.
Defined.

(** C10.  While no outgoing transfer is held, an outgoing-transfer event of
    any kind changes no field and no transfer and emits nothing, so that no
    outgoing transfer is held afterwards either; a well-formed event leaves
    the two log entries and does not throw. *)
Theorem no_outgoing_event_ignored env et raw s :
  outgoing (transfers s) = None ->
  fields (_emitEventForOutgoingTransfer env et raw s).2 = fields s /\
  transfers (_emitEventForOutgoingTransfer env et raw s).2 = transfers s /\
  emitted (_emitEventForOutgoingTransfer env et raw s).2 = emitted s /\
  outgoing (transfers (_emitEventForOutgoingTransfer env et raw s).2) = None /\
  (isString et = true -> isObject raw = true ->
   _emitEventForOutgoingTransfer env et raw s =
     (inr tt,
      add_log (DebugNoMatchingOutgoing raw)
        (add_log (TraceEmitEventForOutgoingTransfer et raw) s))).
Proof.
  intros Hnone.
  destruct (isString et) eqn:Het; [destruct (isObject raw) eqn:Hraw|].
  - destruct (isObject_getProp raw "sid" Hraw) as [sid Hsid].
    rewrite (outgoing_event_run env et raw s sid) by done.
    rewrite Hnone. by repeat split.
  - unfold _emitEventForOutgoingTransfer, bind, update. rewrite Het, Hraw.
    by repeat split.
  - unfold _emitEventForOutgoingTransfer, bind, update. rewrite Het.
    by repeat split.
Qed.

Lemma no_outgoing_event_witness :
  outgoing (transfers sample_task) = None /\
  (_emitEventForOutgoingTransfer SpecModel.env (VStr "transfer-initiated")
     (VObj [("sid", VStr "TRaaa")]) sample_task).2.(transfers) = no_transfers /\
  (_emitEventForOutgoingTransfer SpecModel.env (VStr "transfer-initiated")
     (VObj [("sid", VStr "TRaaa")]) sample_task).2.(emitted) = [].
Proof.
  split; [reflexivity|].
  destruct (no_outgoing_event_ignored SpecModel.env (VStr "transfer-initiated")
              (VObj [("sid", VStr "TRaaa")]) sample_task eq_refl)
    as (_ & H1 & H2 & _).
  split; [exact H1|exact H2].
Defined.

(** C5.  For a well-formed outgoing-transfer event whose sid is the sid of
    the outgoing transfer that is held: when its kind is transfer-initiated,
    the outgoing-update routine is run on the event data and then
    [transferInitiated] is emitted carrying the outgoing transfer that the
    routine left in the slot, which for the routine of the specification is
    the entity built from the event data; for any other kind the event is
    handed to the event-application routine of the transfers and the Task
    emits nothing itself. *)
Theorem matching_transfer_event env et raw s held sid :
  isString et = true -> isObject raw = true ->
  outgoing (transfers s) = Some held ->
  getProp raw "sid" = Some sid ->
  strictEq (transfer_sid held) sid = true ->
  let s0 := add_log (TraceEmitEventForOutgoingTransfer et raw) s in
  (et = VStr TRANSFER_INITIATED ->
   _emitEventForOutgoingTransfer env et raw s =
     match Transfers_updateOutgoing env raw VUndefined (transfers s) with
     | (inr _, ts) =>
         (inr tt,
          add_emitted (VStr "transferInitiated") (OutgoingSlot (outgoing ts))
            (set_transfers ts s0))
     | (inl e, ts) => (inl e, set_transfers ts s0)
     end) /\
  (et = VStr TRANSFER_INITIATED ->
   Transfers_updateOutgoing env = SpecModel.Transfers_updateOutgoing ->
   _emitEventForOutgoingTransfer env et raw s =
     (inr tt,
      add_emitted (VStr "transferInitiated")
        (OutgoingSlot (Some (SpecModel.entity_of raw)))
        (set_transfers
           {| incoming := incoming (transfers s);
              outgoing := Some (SpecModel.entity_of raw);
              transfer_events := transfer_events (transfers s) |} s0))) /\
  (et <> VStr TRANSFER_INITIATED ->
   _emitEventForOutgoingTransfer env et raw s =
     on_transfers (Transfers_emitEvent env et raw) s0).
Proof.
  intros Het Hraw Hheld Hsid Heq s0.
  pose proof (outgoing_event_run env et raw s sid Het Hraw Hsid) as Hrun.
  cbv zeta in Hrun. fold s0 in Hrun. rewrite Hheld, Heq in Hrun.
  split; [|split].
  - intros Hi. apply is_transfer_initiated_iff in Hi.
    by rewrite Hrun, Hi.
  - intros Hi Hspec. apply is_transfer_initiated_iff in Hi.
    by rewrite Hrun, Hi, Hspec.
  - intros Hi. rewrite Hrun.
    destruct (is_transfer_initiated et) eqn:E; [|done].
    by apply is_transfer_initiated_iff in E.
Qed.

Lemma matching_transfer_event_witness :
  let raw := VObj [("sid", VStr "TRaaa"); ("mode", VStr "COLD")] in
  (isString (VStr TRANSFER_INITIATED) = true /\ isObject raw = true /\
   outgoing (transfers sample_transferring) =
     Some (SpecModel.entity_of (VObj [("sid", VStr "TRaaa")])) /\
   getProp raw "sid" = Some (VStr "TRaaa") /\
   strictEq (VStr "TRaaa") (VStr "TRaaa") = true) /\
  (_emitEventForOutgoingTransfer SpecModel.env (VStr TRANSFER_INITIATED) raw
     sample_transferring).2.(emitted) =
    [(VStr "transferInitiated", OutgoingSlot (Some (SpecModel.entity_of raw)))].
Proof.
  intros raw. split; [by repeat split|].
  destruct (matching_transfer_event SpecModel.env (VStr TRANSFER_INITIATED) raw
              sample_transferring
              (SpecModel.entity_of (VObj [("sid", VStr "TRaaa")]))
              (VStr "TRaaa") eq_refl eq_refl eq_refl eq_refl eq_refl)
    as (_ & H & _).
  rewrite H; reflexivity.
Defined.

Lemma strictEq_error et :
  strictEq et (VStr "error") = true <-> et = VStr "error".
Proof.
  split; [|by intros ->].
  destruct et as [| | | |x| |]; try done.
  unfold strictEq. by intros ->%String.eqb_eq.
Qed.

(** C9, as amended.  [_emitEvent] throws a TypeError exactly when the event
    type is not a string or the event data is not an object; whenever it
    throws, nothing is emitted and only the trace entry is left.  Otherwise
    it emits the event type, whatever the string, with the Task itself as
    what the event carries; save that for the type [error], while nothing
    listens for that event, the emitter throws its unhandled-error Error. *)
Theorem emitEvent_dispatch et raw s :
  ((exists e, (_emitEvent et raw s).1 = inl e /\ class_of e = TypeErrorClass) <->
   isString et = false \/ isObject raw = false) /\
  (forall e, (_emitEvent et raw s).1 = inl e ->
     (_emitEvent et raw s).2 = add_log (TraceEmitEvent et raw) s) /\
  (isString et = true -> isObject raw = true ->
   et <> VStr "error" \/ error_listener s = true ->
   _emitEvent et raw s =
     (inr tt, add_emitted et ThisTask (add_log (TraceEmitEvent et raw) s))) /\
  (isObject raw = true -> error_listener s = false ->
   _emitEvent (VStr "error") raw s =
     (inl UnhandledErrorEvent,
      add_log (TraceEmitEvent (VStr "error") raw) s)).
Proof.
  assert (forall x, error_listener (add_log x s) = error_listener s) as Hl by done.
  split; [|split; [|split]].
  - unfold _emitEvent, emit, bind, this, update, throw. cbv beta.
    destruct (isString et) eqn:Het; [destruct (isObject raw) eqn:Hraw|];
      cbn [negb fst snd].
    + split; [|by intros [?|?]].
      intros (e & He & Hc). rewrite Hl in He.
      destruct (strictEq et (VStr "error") && negb (error_listener s));
        cbn [fst] in He; [|done]. by injection He as <-.
    + split; [by right|]. intros _. by exists EmitPayloadRequired.
    + split; [by left|]. intros _. by exists EmitEventTypeRequired.
  - intros e. unfold _emitEvent, emit, bind, this, update, throw. cbv beta.
    destruct (isString et); [destruct (isObject raw)|]; cbn [negb fst snd];
      [|done..].
    rewrite Hl.
    by destruct (strictEq et (VStr "error") && negb (error_listener s)).
  - intros Het Hraw Hok.
    unfold _emitEvent, emit, bind, this, update, throw. cbv beta. rewrite Het, Hraw.
    cbn [negb]. rewrite Hl.
    destruct (strictEq et (VStr "error")) eqn:E; [|done].
    apply strictEq_error in E. destruct Hok as [Hok| ->]; done.
  - intros Hraw Hno.
    unfold _emitEvent, emit, bind, this, update, throw. cbv beta. rewrite Hraw.
    cbn [isString negb]. by rewrite Hl, Hno.
Qed.

(** C9 as stated fails for the empty string: it is not a non-empty string,
    and [_emitEvent] does not throw but emits an event of that name. *)
Lemma emitEvent_counterexample :
  non_empty_string (VStr "") = false /\
  _emitEvent (VStr "") (VObj []) sample_task =
    (inr tt,
     add_emitted (VStr "") ThisTask
       (add_log (TraceEmitEvent (VStr "") (VObj [])) sample_task)).
Proof. split; reflexivity. Qed.

(** ** Commands *)

Lemma registered_transfer_list ws wk r :
  Routes.new ws wk = inr r ->
  Routes.routes r !! Routes.TASK_TRANSFER_LIST =
    Some {| Routes.path :=
              Routes.path_join ["Workspaces"; ws; "Workers"; wk; "Transfers"] |}.
Proof.
  intros Hnew. rewrite (RoutesFacts.new_routes _ _ _ Hnew).
  apply elem_of_list_to_map_1.
  - apply (bool_decide_unpack _). by vm_compute.
  - unfold Routes.route_table. do 7 (apply list_elem_of_further).
    apply list_elem_of_here.
Qed.

Lemma transfer_resumed_fields env to response s :
  fields (transfer_resumed env to response s).2 = fields s.
Proof.
  unfold transfer_resumed, bind, update, on_transfers. cbn [transfers add_log].
  by destruct (Transfers_updateOutgoing env response (VBool true) (transfers s)).
Qed.

(** C6, as amended.  For a string [to] and options that are an object (or
    left out), [transfer] sends a request that carries ReservationSid,
    TaskSid and To, and carries Attributes, Mode and Priority each exactly
    when the value of that option is truthy; when the request has resolved,
    the Task's own fields are as they were, and, the outgoing-update routine
    being that of the specification, the outgoing transfer is the entity built
    from the response and has the sid of the response. *)
Theorem transfer_request env s ws wk to options a m p :
  isString to = true ->
  Routes.new ws wk = inr (routes s) ->
  getProp (default_empty options) "attributes" = Some a ->
  getProp (default_empty options) "mode" = Some m ->
  getProp (default_empty options) "priority" = Some p ->
  (exists req,
     invoke env (CallTransfer to options) s = (Returns (Awaiting req), s) /\
     url req = Routes.path_join ["Workspaces"; ws; "Workers"; wk; "Transfers"] /\
     api req = API_V2 /\
     params req !! "ReservationSid" = Some (field "reservationSid" s) /\
     params req !! "TaskSid" = Some (field "sid" s) /\
     params req !! "To" = Some to /\
     params req !! "Attributes" = (if truthy a then Some a else None) /\
     params req !! "Mode" = (if truthy m then Some m else None) /\
     params req !! "Priority" = (if truthy p then Some p else None)) /\
  (forall response, fields (transfer_resumed env to response s).2 = fields s) /\
  (forall response sid,
     Transfers_updateOutgoing env = SpecModel.Transfers_updateOutgoing ->
     getProp response "sid" = Some sid ->
     (transfer_resumed env to response s).1 = inr tt /\
     outgoing (transfers (transfer_resumed env to response s).2) =
       Some (SpecModel.entity_of response) /\
     transfer_sid (SpecModel.entity_of response) = sid).
Proof.
  intros Hto Hnew Ha Hm Hp. split; [|split].
  - unfold invoke, call_async, transfer. rewrite Hto. cbn [negb].
    unfold bind at 1. unfold this at 1.
    unfold bind at 1. unfold route_path, bind at 1, this at 1.
    unfold Routes.getRoute. rewrite (registered_transfer_list _ _ _ Hnew).
    cbn [map of_result]. unfold bind at 1. cbn [ret Routes.path].
    unfold read. rewrite Ha, Hm, Hp. unfold bind, ret.
    eexists. split; [reflexivity|]. cbn [url api params].
    repeat split;
      destruct (truthy a), (truthy m), (truthy p); by simplify_map_eq.
  - intros response. apply transfer_resumed_fields.
  - intros response sid Hspec Hsid.
    unfold transfer_resumed, bind, update, on_transfers. rewrite Hspec.
    cbn. unfold SpecModel.entity_of. rewrite Hsid. done.
Qed.

Lemma transfer_request_witness :
  let options := VObj [("mode", VStr "COLD")] in
  (isString (VStr "WKyyy") = true /\
   Routes.new "WSxxx" "WKyyy" = inr (routes sample_task) /\
   getProp options "attributes" = Some VUndefined /\
   getProp options "mode" = Some (VStr "COLD") /\
   getProp options "priority" = Some VUndefined) /\
  exists req,
    invoke SpecModel.env (CallTransfer (VStr "WKyyy") options) sample_task =
      (Returns (Awaiting req), sample_task) /\
    params req !! "To" = Some (VStr "WKyyy") /\
    params req !! "Mode" = Some (VStr "COLD") /\
    params req !! "Attributes" = None /\
    params req !! "Priority" = None.
Proof.
  intros options. split; [by repeat split|].
  destruct (transfer_request SpecModel.env sample_task "WSxxx" "WKyyy" (VStr "WKyyy")
              options VUndefined (VStr "COLD") VUndefined
              eq_refl eq_refl eq_refl eq_refl eq_refl)
    as ((req & H1 & _ & _ & _ & _ & H2 & H3 & H4 & H5) & _).
  exists req. by repeat split.
Defined.

(** C6 as stated fails for a priority of 0 and for an empty mode: both
    options are present in the options and the request carries neither
    Priority nor Mode. *)
Lemma transfer_request_counterexample :
  let options := VObj [("priority", VNum 0); ("mode", VStr "")] in
  present options "priority" = true /\
  present options "mode" = true /\
  exists req,
    invoke SpecModel.env (CallTransfer (VStr "WKyyy") options) sample_task =
      (Returns (Awaiting req), sample_task) /\
    params req !! "Priority" = None /\
    params req !! "Mode" = None.
Proof.
  intros options. split; [reflexivity|]. split; [reflexivity|].
  eexists. split; [reflexivity|]. split; vm_compute; reflexivity.
Qed.

(** C7, as amended.  A command whose argument has the wrong type (for
    wrapUp: whose [options.reason] is truthy and not a string) fails before
    any request is sent and leaves the Task as it was: it throws its
    argument error, and [transfer], being [async], returns a promise rejected
    with it.  In wrapUp the route is resolved first, so that a route that
    fails to resolve is what is thrown. *)
Theorem command_rejects_bad_arguments env c s :
  rejects env c = true ->
  invoke env c s = (failed c (argument_error c s), s) \/
  (exists options e,
     c = CallWrapUp options /\
     Routes.getRoute (routes s) Routes.TASK_INSTANCE [toString (field "sid" s)] =
       inl e /\
     invoke env c s = (Throws e, s)).
Proof.
  destruct c as [reason|options|attributes|options|workerSid|target onHold|to options];
    cbn [rejects invoke failed argument_error]; intros H.
  - left. unfold call_sync, complete. by rewrite H.
  - destruct (getProp (default_empty options) "reason") as [reason|] eqn:Hr;
      [|done].
    apply andb_true_iff in H as [Ht Hs]. apply negb_true_iff in Hs.
    unfold call_sync, wrapUp, route_path, bind, this. cbn [map].
    destruct (Routes.getRoute (routes s) Routes.TASK_INSTANCE
                [toString (field "sid" s)]) as [e|r] eqn:Hroute.
    + right. exists options, e. by repeat split.
    + left. cbn [of_result]. unfold read. rewrite Hr. unfold ret.
      cbv beta iota. rewrite Ht, Hs. reflexivity.
  - left. unfold call_sync, setAttributes. by rewrite H.
  - left. unfold call_sync, updateParticipant, bind, this. by rewrite H.
  - left. unfold call_sync, kick. by rewrite H.
  - left. unfold call_sync, hold.
    destruct (isString target); cbn [negb orb] in *; [|done]. by rewrite H.
  - left. unfold call_async, transfer. by rewrite H.
Qed.

Lemma command_rejects_witness :
  rejects SpecModel.env (CallSetAttributes (VStr "foo")) = true /\
  invoke SpecModel.env (CallSetAttributes (VStr "foo")) sample_task =
    (Throws SetAttributesRequired, sample_task).
Proof.
  split; [reflexivity|].
  destruct (command_rejects_bad_arguments SpecModel.env
              (CallSetAttributes (VStr "foo")) sample_task eq_refl)
    as [H|(options & e & H & _)]; [exact H|discriminate H].
Defined.

(** C7 as stated fails for an empty reason: it violates the precondition of
    complete, a non-empty string, and the request is sent; likewise a reason
    of 0 given to wrapUp, which is present and is not a string. *)
Lemma command_precondition_counterexample :
  spec_precondition (CallComplete (VStr "")) = false /\
  (exists req,
     invoke SpecModel.env (CallComplete (VStr "")) sample_task =
       (Returns (Awaiting req), sample_task) /\
     params req !! "Reason" = Some (VStr "")) /\
  spec_precondition (CallWrapUp (VObj [("reason", VNum 0)])) = false /\
  (exists req,
     invoke SpecModel.env (CallWrapUp (VObj [("reason", VNum 0)])) sample_task =
       (Returns (Awaiting req), sample_task)).
Proof.
  split; [reflexivity|]. split.
  { eexists. split; [reflexivity|]. vm_compute. reflexivity. }
  split; [reflexivity|]. eexists. reflexivity.
Qed.

End TaskFacts.

(** * Further properties of the route table *)

Module RoutesMore.

Import Routes RoutesFacts.

#[local] Arguments String.append !_ _ / : simpl nomatch.
#[local] Arguments Ascii.eqb : simpl never.

(** The names under which the constructor registers a route. *)
Lemma route_names ws wk :
  (route_table ws wk).*1 =
    [ ACTIVITIES_LIST; WORKER_INSTANCE; WORKER_LIST; RESERVATION_INSTANCE;
      RESERVATION_LIST; TASK_LIST; TASK_INSTANCE; TASK_TRANSFER_LIST;
      TASK_TRANSFER_INSTANCE; TASK_RESERVATION_INSTANCE; TASKQUEUE_LIST;
      WORKER_CHANNELS; CUSTOMER_PARTICIPANT_INSTANCE;
      WORKER_PARTICIPANT_INSTANCE; HOLD_WORKER_PARTICIPANT_INSTANCE;
      KICK_WORKER_PARTICIPANT ].
Proof. reflexivity. Qed.

Lemma route_names_NoDup ws wk : NoDup (route_table ws wk).*1.
Proof. rewrite route_names. apply (bool_decide_unpack _). by vm_compute. Qed.

Lemma registered_lookup ws wk r name route :
  new ws wk = inr r ->
  (name, route) ∈ route_table ws wk ->
  routes r !! name = Some route.
Proof.
  intros Hnew Hin. rewrite (new_routes _ _ _ Hnew).
  apply elem_of_list_to_map_1; [apply route_names_NoDup|done].
Qed.

(** X1.  The constructor throws exactly when one of the two sids is empty;
    otherwise it keeps the two sids and registers a route under each of the
    sixteen route names and under no other name. *)
Theorem new_registers ws wk :
  (new ws wk = inl RoutesCtorError <-> ws = "" \/ wk = "") /\
  (forall r, new ws wk = inr r ->
     ws <> "" /\ wk <> "" /\ workspaceSid r = ws /\ workerSid r = wk /\
     forall name,
       is_Some (routes r !! name) <->
       name ∈ [ ACTIVITIES_LIST; WORKER_INSTANCE; WORKER_LIST;
                RESERVATION_INSTANCE; RESERVATION_LIST; TASK_LIST;
                TASK_INSTANCE; TASK_TRANSFER_LIST; TASK_TRANSFER_INSTANCE;
                TASK_RESERVATION_INSTANCE; TASKQUEUE_LIST; WORKER_CHANNELS;
                CUSTOMER_PARTICIPANT_INSTANCE; WORKER_PARTICIPANT_INSTANCE;
                HOLD_WORKER_PARTICIPANT_INSTANCE; KICK_WORKER_PARTICIPANT ]).
Proof.
  split.
  - unfold new.
    destruct (String.eqb_spec ws "") as [->|Hws];
      [|destruct (String.eqb_spec wk "") as [->|Hwk]]; cbn [orb].
    + split; auto.
    + split; auto.
    + split; [done|by intros [?|?]].
  - intros r Hnew. pose proof (new_routes _ _ _ Hnew) as Hroutes.
    unfold new in Hnew.
    destruct (String.eqb_spec ws "") as [->|Hws];
      [done|destruct (String.eqb_spec wk "") as [->|Hwk]]; [done|].
    cbn [orb] in Hnew. injection Hnew as Hnew.
    split; [done|]. split; [done|].
    split; [by rewrite <- Hnew|]. split; [by rewrite <- Hnew|].
    intros name. rewrite Hroutes, <- (route_names ws wk). split.
    + intros [route Hr]. apply elem_of_list_to_map_2 in Hr.
      apply list_elem_of_fmap. by exists (name, route).
    + intros Hin.
      destruct (list_to_map (route_table ws wk) !! name) as [route|] eqn:E;
        [by eexists|].
      by apply not_elem_of_list_to_map_2 in E.
Qed.

End RoutesMore.
(** * Further properties of the route table, continued *)

Module RoutesResolve.

Import Routes RoutesFacts RoutesMore.

#[local] Arguments String.append !_ _ / : simpl nomatch.
#[local] Arguments Ascii.eqb : simpl never.

Lemma count_skip c p :
  Ascii.eqb c "%" = false ->
  count_placeholders (String c p) = count_placeholders p.
Proof.
  intros Hc. destruct p as [|d p]; [done|].
  change (count_placeholders (String c (String d p))) with
    (if Ascii.eqb c "%" && Ascii.eqb d "s" then S (count_placeholders p)
     else count_placeholders (String d p)).
  by rewrite Hc.
Qed.

Lemma count_app_free u p :
  occurs "%" u = false ->
  count_placeholders (u +:+ p) = count_placeholders p.
Proof.
  induction u as [|c u IH]; [done|].
  cbn [occurs]. intros H. apply orb_false_iff in H as [Hc Hu].
  change (String c u +:+ p) with (String c (u +:+ p)).
  rewrite count_skip by by rewrite Ascii.eqb_sym. by apply IH.
Qed.

Lemma fill_app_free u p args :
  occurs "%" u = false -> fill (u +:+ p) args = u +:+ fill p args.
Proof.
  induction u as [|c u IH]; [done|].
  cbn [occurs]. intros H. apply orb_false_iff in H as [Hc Hu].
  change (String c u +:+ p) with (String c (u +:+ p)).
  rewrite fill_skip by by rewrite Ascii.eqb_sym. by rewrite IH.
Qed.

Lemma plain_sid_inv s :
  plain_sid s = true -> segment_ok s = true /\ occurs "%" s = false.
Proof.
  intros H. split; [by apply plain_sid_segment_ok|].
  unfold plain_sid in H. apply andb_true_iff in H as [_ H].
  by apply negb_true_iff.
Qed.

(** The number of placeholders of a template joined from segments. *)
Lemma count_join segs :
  forallb segment_ok segs = true ->
  count_placeholders (join_slash segs) =
    length (filter (fun s => occurs "%" s = true) segs).
Proof.
  induction segs as [|s segs IH]; [done|].
  cbn [forallb]. intros H. apply andb_true_iff in H as [Hs Hsegs].
  specialize (IH Hsegs).
  unfold segment_ok in Hs. apply andb_true_iff in Hs as [_ Hs].
  apply orb_true_iff in Hs as [Hs|Hs].
  - apply negb_true_iff in Hs.
    rewrite filter_cons_False by by rewrite Hs.
    rewrite <- IH. destruct segs as [|s' segs].
    + by apply no_percent_no_placeholder.
    + change (join_slash (s :: s' :: segs)) with
        (s +:+ "/" +:+ join_slash (s' :: segs)).
      rewrite count_app_free by done. by rewrite (count_app_free "/").
  - apply String.eqb_eq in Hs as ->.
    rewrite filter_cons_True by done. cbn [length]. rewrite <- IH.
    destruct segs as [|s' segs]; [done|].
    change (join_slash ("%s" :: s' :: segs)) with
      (String "%" (String "s" ("/" +:+ join_slash (s' :: segs)))).
    change (count_placeholders
              (String "%" (String "s" ("/" +:+ join_slash (s' :: segs)))))
      with (S (count_placeholders ("/" +:+ join_slash (s' :: segs)))).
    by rewrite (count_app_free "/").
Qed.

(** X2.  In a table built for sids that are plain path segments without a
    percent sign, the template of [taskReservationInstance] has two
    placeholders, those of [reservationInstance], [taskInstance] and
    [taskTransferInstance] have one, and every other template has none. *)
Theorem registered_placeholders ws wk r name registered :
  plain_sid ws = true -> plain_sid wk = true ->
  new ws wk = inr r ->
  routes r !! name = Some registered ->
  count_placeholders (path registered) =
    if bool_decide (name = TASK_RESERVATION_INSTANCE) then 2
    else if bool_decide (name ∈ [RESERVATION_INSTANCE; TASK_INSTANCE;
                                 TASK_TRANSFER_INSTANCE]) then 1
    else 0.
Proof.
  intros [Hws Hws']%plain_sid_inv [Hwk Hwk']%plain_sid_inv Hnew Hr.
  rewrite (new_routes _ _ _ Hnew) in Hr.
  apply elem_of_list_to_map_2 in Hr. unfold route_table in Hr.
  repeat (apply elem_of_cons in Hr as [Hr|Hr];
          [ injection Hr as -> ->; cbn [path];
            rewrite path_join_plain;
            [ rewrite count_join by (cbn [forallb]; rewrite ?Hws, ?Hwk; reflexivity);
              cbn [filter list_filter];
              repeat (first [ rewrite (decide_False (P := occurs "%" ws = true)) by congruence
                            | rewrite (decide_False (P := occurs "%" wk = true)) by congruence ]);
              reflexivity
            | apply forallb_segment_ok_plain; cbn [forallb];
              rewrite ?Hws, ?Hwk; reflexivity
            | done ]
          | ]).
  by apply elem_of_nil in Hr.
Qed.

Lemma resolve_segments ws wk r name segs args :
  new ws wk = inr r ->
  (name, {| path := path_join segs |}) ∈ route_table ws wk ->
  forallb segment_ok segs = true -> segs <> [] ->
  args <> [] ->
  length args = length (filter (fun s => occurs "%" s = true) segs) ->
  Forall (fun a => plain_argument a = true) args ->
  getRoute r name args = inr {| path := fill (join_slash segs) args |}.
Proof.
  intros Hnew Hin Hsegs Hne Hargs Hlen Hplain.
  destruct args as [|a args]; [done|].
  rewrite (getRoute_some _ _ _ _ _ (registered_lookup _ _ _ _ _ Hnew Hin)).
  cbn [path].
  rewrite path_join_plain by (done || by apply forallb_segment_ok_plain).
  rewrite count_join, Hlen, Nat.eqb_refl by done.
  rewrite (fold_replace_fill (String.length (join_slash segs))); [done..| |done].
  by apply template_ok_join.
Qed.

Ltac in_table := repeat first [apply list_elem_of_here | apply list_elem_of_further].

Lemma task_instance_route ws wk r a :
  plain_sid ws = true ->
  new ws wk = inr r ->
  plain_argument a = true ->
  getRoute r TASK_INSTANCE [a] =
    inr {| path := "Workspaces/" +:+ ws +:+ "/Tasks/" +:+ a |}.
Proof.
  intros [Hws Hws']%plain_sid_inv Hnew Ha.
  rewrite (resolve_segments ws wk r _ ["Workspaces"; ws; "Tasks"; "%s"]);
    [| done | in_table | cbn [forallb]; by rewrite Hws | done | done
     | cbn [filter list_filter];
       rewrite (decide_False (P := occurs "%" ws = true)) by congruence;
       reflexivity
     | by repeat constructor ].
  cbn [join_slash].
  rewrite (fill_app_free "Workspaces"), (fill_app_free "/"),
    (fill_app_free ws), (fill_app_free "/"), (fill_app_free "Tasks"),
    (fill_app_free "/") by done.
  change (fill "%s" [a]) with (a +:+ ""). by rewrite app_empty_r.
Qed.

(** The path of a route without placeholders whose segments are plain. *)
Lemma plain_route_path ws wk segs :
  plain_sid ws = true -> plain_sid wk = true ->
  forallb (fun s => segment_ok s || String.eqb s ws || String.eqb s wk) segs = true ->
  segs <> [] ->
  path_join segs = join_slash segs.
Proof.
  intros [Hws _]%plain_sid_inv [Hwk _]%plain_sid_inv Hsegs Hne.
  apply path_join_plain; [|done].
  apply forallb_segment_ok_plain. rewrite forallb_forall in *.
  intros x Hx. specialize (Hsegs x Hx).
  apply orb_true_iff in Hsegs as [Hsegs| ->%String.eqb_eq]; [|done].
  apply orb_true_iff in Hsegs as [Hsegs| ->%String.eqb_eq]; done.
Qed.

(** X3.  In a table built for sids that are plain path segments without a
    percent sign, and for arguments without a percent or dollar sign, the
    four routes with placeholders resolve to the path of the task, of the
    reservation, of the transfer and of the reservation of a task, with the
    arguments in the order given. *)
Theorem getRoute_instance_paths ws wk r a b :
  plain_sid ws = true -> plain_sid wk = true ->
  new ws wk = inr r ->
  plain_argument a = true -> plain_argument b = true ->
  getRoute r TASK_INSTANCE [a] =
    inr {| path := "Workspaces/" +:+ ws +:+ "/Tasks/" +:+ a |} /\
  getRoute r RESERVATION_INSTANCE [a] =
    inr {| path := "Workspaces/" +:+ ws +:+ "/Workers/" +:+ wk
                   +:+ "/Reservations/" +:+ a |} /\
  getRoute r TASK_TRANSFER_INSTANCE [a] =
    inr {| path := "Workspaces/" +:+ ws +:+ "/Workers/" +:+ wk
                   +:+ "/Transfers/" +:+ a |} /\
  getRoute r TASK_RESERVATION_INSTANCE [a; b] =
    inr {| path := "Workspaces/" +:+ ws +:+ "/Tasks/" +:+ a
                   +:+ "/Reservations/" +:+ b |}.
Proof.
  intros [Hws Hws']%plain_sid_inv [Hwk Hwk']%plain_sid_inv Hnew Ha Hb.
  pose proof (plain_argument_inv _ Ha) as [Ha' _].
  pose proof (plain_argument_inv _ Hb) as [Hb' _].
  assert (forall n segs args,
    (n, {| path := path_join segs |}) ∈ route_table ws wk ->
    forallb segment_ok segs = true -> segs <> [] -> args <> [] ->
    length args = length (filter (fun s => occurs "%" s = true) segs) ->
    Forall (fun a => plain_argument a = true) args ->
    getRoute r n args = inr {| path := fill (join_slash segs) args |}) as Hres
    by (intros; by eapply resolve_segments).
  repeat split.
  - apply (task_instance_route ws wk); [|done..].
    unfold plain_sid, segment_ok in *. apply andb_true_iff in Hws as [-> _].
    by rewrite Hws'.
  - rewrite (Hres _ ["Workspaces"; ws; "Workers"; wk; "Reservations"; "%s"]);
      [| in_table | cbn [forallb]; by rewrite Hws, Hwk | done | done
       | cbn [filter list_filter];
         rewrite (decide_False (P := occurs "%" ws = true)) by congruence;
         rewrite (decide_False (P := occurs "%" wk = true)) by congruence;
         reflexivity
       | by repeat constructor ].
    cbn [join_slash].
    rewrite (fill_app_free "Workspaces"), (fill_app_free "/"),
      (fill_app_free ws), (fill_app_free "/"), (fill_app_free "Workers"),
      (fill_app_free "/"), (fill_app_free wk), (fill_app_free "/"),
      (fill_app_free "Reservations"), (fill_app_free "/") by done.
    change (fill "%s" [a]) with (a +:+ ""). by rewrite app_empty_r.
  - rewrite (Hres _ ["Workspaces"; ws; "Workers"; wk; "Transfers"; "%s"]);
      [| in_table | cbn [forallb]; by rewrite Hws, Hwk | done | done
       | cbn [filter list_filter];
         rewrite (decide_False (P := occurs "%" ws = true)) by congruence;
         rewrite (decide_False (P := occurs "%" wk = true)) by congruence;
         reflexivity
       | by repeat constructor ].
    cbn [join_slash].
    rewrite (fill_app_free "Workspaces"), (fill_app_free "/"),
      (fill_app_free ws), (fill_app_free "/"), (fill_app_free "Workers"),
      (fill_app_free "/"), (fill_app_free wk), (fill_app_free "/"),
      (fill_app_free "Transfers"), (fill_app_free "/") by done.
    change (fill "%s" [a]) with (a +:+ ""). by rewrite app_empty_r.
  - rewrite (Hres _ ["Workspaces"; ws; "Tasks"; "%s"; "Reservations"; "%s"]);
      [| in_table | cbn [forallb]; by rewrite Hws | done | done
       | cbn [filter list_filter];
         rewrite (decide_False (P := occurs "%" ws = true)) by congruence;
         reflexivity
       | by repeat constructor ].
    cbn [join_slash].
    rewrite (fill_app_free "Workspaces"), (fill_app_free "/"),
      (fill_app_free ws), (fill_app_free "/"), (fill_app_free "Tasks"),
      (fill_app_free "/") by done.
    change (fill ("%s" +:+ "/" +:+ "Reservations" +:+ "/" +:+ "%s") [a; b])
      with (a +:+ fill ("/" +:+ "Reservations" +:+ "/" +:+ "%s") [b]).
    rewrite (fill_app_free "/"), (fill_app_free "Reservations"),
      (fill_app_free "/") by done.
    change (fill "%s" [b]) with (b +:+ ""). by rewrite app_empty_r.
Qed.

Lemma getRoute_instance_paths_witness :
  (plain_sid "WSxxx" = true /\ plain_sid "WKyyy" = true /\
   new "WSxxx" "WKyyy" = inr sample_routes /\
   plain_argument "WTxxx" = true /\ plain_argument "WRzzz" = true) /\
  getRoute sample_routes TASK_INSTANCE ["WTxxx"] =
    inr {| path := "Workspaces/WSxxx/Tasks/WTxxx" |}.
Proof.
  split; [by repeat split|].
  destruct (getRoute_instance_paths "WSxxx" "WKyyy" sample_routes "WTxxx"
              "WRzzz" eq_refl eq_refl eq_refl eq_refl eq_refl) as (H & _).
  exact H.
Defined.

Lemma registered_placeholders_witness :
  (plain_sid "WSxxx" = true /\ plain_sid "WKyyy" = true /\
   new "WSxxx" "WKyyy" = inr sample_routes /\
   routes sample_routes !! TASK_RESERVATION_INSTANCE =
     Some {| path := "Workspaces/WSxxx/Tasks/%s/Reservations/%s" |}) /\
  count_placeholders "Workspaces/WSxxx/Tasks/%s/Reservations/%s" = 2.
Proof.
  assert (routes sample_routes !! TASK_RESERVATION_INSTANCE =
            Some {| path := "Workspaces/WSxxx/Tasks/%s/Reservations/%s" |})
    as H by (vm_compute; reflexivity).
  split; [by repeat split|].
  exact (registered_placeholders "WSxxx" "WKyyy" sample_routes
           TASK_RESERVATION_INSTANCE _ eq_refl eq_refl eq_refl H).
Defined.

(** ** Dollar patterns *)

Lemma first_placeholder_split p pre post :
  first_placeholder p = Some (pre, post) ->
  p = pre +:+ String "%" (String "s" post).
Proof.
  revert pre. induction p as [|c p IH]; intros pre; [done|].
  destruct p as [|d p]; [done|].
  change (first_placeholder (String c (String d p))) with
    (if Ascii.eqb c "%" && Ascii.eqb d "s" then Some ("", p)
     else match first_placeholder (String d p) with
          | Some (pre, post) => Some (String c pre, post)
          | None => None
          end).
  destruct (Ascii.eqb c "%" && Ascii.eqb d "s") eqn:E.
  - apply andb_true_iff in E as [->%Ascii.eqb_eq ->%Ascii.eqb_eq].
    by intros [= <- <-].
  - destruct (first_placeholder (String d p)) as [[pre' post']|]; [|done].
    intros [= <- <-]. by rewrite (IH pre' eq_refl) at 1.
Qed.

Lemma replace_first_ampersand p : replace_first p "$&" = p.
Proof.
  unfold replace_first.
  destruct (first_placeholder p) as [[pre post]|] eqn:E; [|done].
  by rewrite (first_placeholder_split _ _ _ E).
Qed.

(** X4.  The argument [$&] stands, in [String.prototype.replace], for the
    text that was matched: a route resolved with as many arguments [$&] as
    its template has placeholders comes back with its template unchanged,
    placeholders included. *)
Theorem getRoute_ampersand r name registered args :
  routes r !! name = Some registered ->
  Forall (fun a => a = "$&") args ->
  length args = count_placeholders (path registered) ->
  getRoute r name args = inr registered.
Proof.
  intros Hr Hargs Hlen. destruct args as [|a args].
  - unfold getRoute. by rewrite Hr.
  - rewrite (getRoute_some _ _ _ _ _ Hr), Hlen, Nat.eqb_refl.
    assert (forall l, Forall (fun a : string => a = "$&") l ->
              forall p, fold_left replace_first l p = p) as Hfold.
    { induction 1 as [|x xs -> _ IH]; intros p; [done|].
      cbn [fold_left]. by rewrite replace_first_ampersand. }
    rewrite Hfold by done. by destruct registered.
Qed.

Lemma getRoute_ampersand_witness :
  (routes sample_routes !! TASK_INSTANCE =
     Some {| path := "Workspaces/WSxxx/Tasks/%s" |} /\
   Forall (fun a : string => a = "$&") ["$&"] /\
   length ["$&"] = count_placeholders "Workspaces/WSxxx/Tasks/%s") /\
  getRoute sample_routes TASK_INSTANCE ["$&"] =
    inr {| path := "Workspaces/WSxxx/Tasks/%s" |}.
Proof.
  assert (routes sample_routes !! TASK_INSTANCE =
            Some {| path := "Workspaces/WSxxx/Tasks/%s" |}) as H
    by (vm_compute; reflexivity).
  split; [split; [exact H|split; [by repeat constructor|reflexivity]]|].
  apply (getRoute_ampersand sample_routes TASK_INSTANCE _ ["$&"] H);
    [by repeat constructor|reflexivity].
Defined.

End RoutesResolve.

(** * Further properties of the Task *)

Module TaskMore.

Import Task TaskFacts.

Lemma sample_parses env config :
  TaskDescriptor env = SpecModel.TaskDescriptor ->
  TaskDescriptor env sample_payload config = inr sample_descriptor.
Proof. intros ->. vm_compute. reflexivity. Qed.

(** ** Commands *)

Lemma route_path_frame route args s : (route_path route args s).2 = s.
Proof.
  unfold route_path, bind, this.
  by destruct (Routes.getRoute (routes s) route (map toString args)).
Qed.

Lemma route_path_task_instance ws wk s :
  Routes.plain_sid ws = true ->
  Routes.new ws wk = inr (routes s) ->
  Routes.plain_argument (toString (field "sid" s)) = true ->
  route_path Routes.TASK_INSTANCE [field "sid" s] s =
    (inr ("Workspaces/" +:+ ws +:+ "/Tasks/" +:+ toString (field "sid" s)), s).
Proof.
  intros Hws Hnew Hsid. unfold route_path, bind, this. cbn [map].
  by rewrite (RoutesResolve.task_instance_route ws wk).
Qed.

Lemma route_path_string_sid ws wk sid s :
  field "sid" s = VStr sid ->
  Routes.plain_sid ws = true ->
  Routes.new ws wk = inr (routes s) ->
  Routes.plain_argument sid = true ->
  route_path Routes.TASK_INSTANCE [field "sid" s] s =
    (inr ("Workspaces/" +:+ ws +:+ "/Tasks/" +:+ sid), s).
Proof.
  intros Hsid Hws Hnew Hplain.
  rewrite (route_path_task_instance ws wk) by (by rewrite ?Hsid).
  by rewrite Hsid.
Qed.

(** X5.  No command changes the Task before its request has been answered:
    whatever the arguments, and whether the call throws, returns a rejected
    promise or sends its request, the Task is as it was when the call
    returns. *)
Theorem invoke_leaves_task env c s : (invoke env c s).2 = s.
Proof.
  destruct c as [reason|options|attributes|options|workerSid|target onHold|to options];
    unfold invoke, call_sync, call_async.
  - unfold complete, bind, this. destruct (isString reason); [|done].
    cbn [negb]. pose proof (route_path_frame Routes.TASK_INSTANCE [field "sid" s] s).
    by destruct (route_path Routes.TASK_INSTANCE [field "sid" s] s) as [[?|?] ?].
  - unfold wrapUp, bind, this, read.
    pose proof (route_path_frame Routes.TASK_INSTANCE [field "sid" s] s).
    destruct (route_path Routes.TASK_INSTANCE [field "sid" s] s) as [[?|?] ?];
      [done|]. cbn [snd] in *. subst.
    destruct (getProp (default_empty options) "reason") as [reason|]; [|done].
    cbn [ret]. by destruct (truthy reason), (isString reason).
  - unfold setAttributes, bind, this. destruct (isObject attributes); [|done].
    cbn [negb]. pose proof (route_path_frame Routes.TASK_INSTANCE [field "sid" s] s).
    by destruct (route_path Routes.TASK_INSTANCE [field "sid" s] s) as [[?|?] ?].
  - unfold updateParticipant, bind, this.
    destruct (validateOptions env options [("hold", isBoolean)]); [|done].
    cbn [negb].
    pose proof (route_path_frame Routes.CUSTOMER_PARTICIPANT_INSTANCE [] s).
    by destruct (route_path Routes.CUSTOMER_PARTICIPANT_INSTANCE [] s) as [[?|?] ?].
  - unfold kick, bind, this. destruct (isString workerSid); [|done].
    cbn [negb]. pose proof (route_path_frame Routes.KICK_WORKER_PARTICIPANT [] s).
    by destruct (route_path Routes.KICK_WORKER_PARTICIPANT [] s) as [[?|?] ?].
  - unfold hold, bind, this. destruct (isString target); [|done].
    destruct (isBoolean onHold); [|done]. cbn [negb].
    pose proof (route_path_frame Routes.HOLD_WORKER_PARTICIPANT_INSTANCE [] s).
    by destruct (route_path Routes.HOLD_WORKER_PARTICIPANT_INSTANCE [] s)
      as [[?|?] ?].
  - unfold transfer, bind, this, read. destruct (isString to); [|done].
    cbn [negb]. pose proof (route_path_frame Routes.TASK_TRANSFER_LIST [] s).
    destruct (route_path Routes.TASK_TRANSFER_LIST [] s) as [[?|?] ?];
      [done|]. cbn [snd] in *. subst.
    destruct (getProp (default_empty options) "attributes"); [|done].
    destruct (getProp (default_empty options) "mode"); [|done].
    by destruct (getProp (default_empty options) "priority").
Qed.

(** X6.  [complete(reason)] with a string reason, on a Task whose sid is a
    string without a percent or dollar sign and whose worker's routes were
    built for a plain workspace sid, sends to the path of the Task, under
    the legacy API version, a request with exactly AssignmentStatus,
    [completed], and Reason, the reason as given. *)
Theorem complete_request env ws wk reason sid s :
  isString reason = true ->
  field "sid" s = VStr sid ->
  Routes.plain_sid ws = true ->
  Routes.new ws wk = inr (routes s) ->
  Routes.plain_argument sid = true ->
  invoke env (CallComplete reason) s =
    (Returns (Awaiting
       {| url := "Workspaces/" +:+ ws +:+ "/Tasks/" +:+ sid;
          params := <["Reason" := reason]>
                      (<["AssignmentStatus" := VStr "completed"]> ∅);
          api := API_V1 |}), s).
Proof.
  intros Hreason Hsid Hws Hnew Hplain.
  unfold invoke, call_sync, complete. rewrite Hreason. cbn [negb].
  unfold bind at 1. unfold this at 1. unfold bind.
  by rewrite (route_path_string_sid ws wk sid).
Qed.

Lemma complete_request_witness :
  (isString (VStr "done") = true /\
   field "sid" sample_task = VStr "WTxxx" /\
   Routes.plain_sid "WSxxx" = true /\
   Routes.new "WSxxx" "WKyyy" = inr (routes sample_task) /\
   Routes.plain_argument "WTxxx" = true) /\
  invoke SpecModel.env (CallComplete (VStr "done")) sample_task =
    (Returns (Awaiting
       {| url := "Workspaces/WSxxx/Tasks/WTxxx";
          params := <["Reason" := VStr "done"]>
                      (<["AssignmentStatus" := VStr "completed"]> ∅);
          api := API_V1 |}), sample_task).
Proof.
  split; [by repeat split|].
  exact (complete_request SpecModel.env "WSxxx" "WKyyy" (VStr "done") "WTxxx"
           sample_task eq_refl eq_refl eq_refl eq_refl eq_refl).
Defined.

(** X7.  [wrapUp(options)], on a Task whose sid is a string without a
    percent or dollar sign, with options that are an object or left out and
    a reason that is a string or falsy, sends to the path of the Task a
    request with AssignmentStatus, [wrapping], and carries Reason exactly
    when the reason is truthy. *)
Theorem wrapUp_request env ws wk options reason sid s :
  field "sid" s = VStr sid ->
  Routes.plain_sid ws = true ->
  Routes.new ws wk = inr (routes s) ->
  Routes.plain_argument sid = true ->
  getProp (default_empty options) "reason" = Some reason ->
  (truthy reason = true -> isString reason = true) ->
  invoke env (CallWrapUp options) s =
    (Returns (Awaiting
       {| url := "Workspaces/" +:+ ws +:+ "/Tasks/" +:+ sid;
          params :=
            if truthy reason
            then <["Reason" := reason]>
                   (<["AssignmentStatus" := VStr "wrapping"]> ∅)
            else <["AssignmentStatus" := VStr "wrapping"]> ∅;
          api := API_V1 |}), s).
Proof.
  intros Hsid Hws Hnew Hplain Hreason Hstr.
  unfold invoke, call_sync, wrapUp.
  unfold bind at 1. unfold this at 1. unfold bind at 1.
  rewrite (route_path_string_sid ws wk sid) by done.
  unfold read. rewrite Hreason. unfold bind, ret.
  destruct (truthy reason); [|done]. by rewrite Hstr.
Qed.

Lemma wrapUp_request_witness :
  let options := VObj [("reason", VStr "break")] in
  (field "sid" sample_task = VStr "WTxxx" /\
   Routes.plain_sid "WSxxx" = true /\
   Routes.new "WSxxx" "WKyyy" = inr (routes sample_task) /\
   Routes.plain_argument "WTxxx" = true /\
   getProp (default_empty options) "reason" = Some (VStr "break") /\
   getProp (default_empty VUndefined) "reason" = Some VUndefined) /\
  invoke SpecModel.env (CallWrapUp options) sample_task =
    (Returns (Awaiting
       {| url := "Workspaces/WSxxx/Tasks/WTxxx";
          params := <["Reason" := VStr "break"]>
                      (<["AssignmentStatus" := VStr "wrapping"]> ∅);
          api := API_V1 |}), sample_task) /\
  invoke SpecModel.env (CallWrapUp VUndefined) sample_task =
    (Returns (Awaiting
       {| url := "Workspaces/WSxxx/Tasks/WTxxx";
          params := <["AssignmentStatus" := VStr "wrapping"]> ∅;
          api := API_V1 |}), sample_task).
Proof.
  intros options. split; [by repeat split|]. split.
  - exact (wrapUp_request SpecModel.env "WSxxx" "WKyyy" options (VStr "break")
             "WTxxx" sample_task eq_refl eq_refl eq_refl eq_refl eq_refl
             (fun _ => eq_refl)).
  - exact (wrapUp_request SpecModel.env "WSxxx" "WKyyy" VUndefined VUndefined
             "WTxxx" sample_task eq_refl eq_refl eq_refl eq_refl eq_refl
             (fun H => H)).
Defined.

(** X8.  [setAttributes(attributes)] with an object, on a Task whose sid is
    a string without a percent or dollar sign, sends to the path of the
    Task, under the legacy API version, a request whose only parameter is
    Attributes, the object as given. *)
Theorem setAttributes_request env ws wk attributes sid s :
  isObject attributes = true ->
  field "sid" s = VStr sid ->
  Routes.plain_sid ws = true ->
  Routes.new ws wk = inr (routes s) ->
  Routes.plain_argument sid = true ->
  invoke env (CallSetAttributes attributes) s =
    (Returns (Awaiting
       {| url := "Workspaces/" +:+ ws +:+ "/Tasks/" +:+ sid;
          params := <["Attributes" := attributes]> ∅;
          api := API_V1 |}), s).
Proof.
  intros Hattrs Hsid Hws Hnew Hplain.
  unfold invoke, call_sync, setAttributes. rewrite Hattrs. cbn [negb].
  unfold bind at 1. unfold this at 1. unfold bind.
  by rewrite (route_path_string_sid ws wk sid).
Qed.

Lemma setAttributes_request_witness :
  (isObject (VObj [("foo", VNum 1)]) = true /\
   field "sid" sample_task = VStr "WTxxx" /\
   Routes.plain_sid "WSxxx" = true /\
   Routes.new "WSxxx" "WKyyy" = inr (routes sample_task) /\
   Routes.plain_argument "WTxxx" = true) /\
  invoke SpecModel.env (CallSetAttributes (VObj [("foo", VNum 1)])) sample_task =
    (Returns (Awaiting
       {| url := "Workspaces/WSxxx/Tasks/WTxxx";
          params := <["Attributes" := VObj [("foo", VNum 1)]]> ∅;
          api := API_V1 |}), sample_task).
Proof.
  split; [by repeat split|].
  exact (setAttributes_request SpecModel.env "WSxxx" "WKyyy"
           (VObj [("foo", VNum 1)]) "WTxxx" sample_task
           eq_refl eq_refl eq_refl eq_refl eq_refl).
Defined.

Lemma route_path_registered ws wk s name segs :
  Routes.new ws wk = inr (routes s) ->
  (name, {| Routes.path := Routes.path_join segs |}) ∈ Routes.route_table ws wk ->
  route_path name [] s = (inr (Routes.path_join segs), s).
Proof.
  intros Hnew Hin. unfold route_path, bind, this, Routes.getRoute.
  by rewrite (RoutesMore.registered_lookup _ _ _ _ _ Hnew Hin).
Qed.

Lemma worker_route_path ws wk leaf :
  Routes.plain_sid ws = true -> Routes.plain_sid wk = true ->
  Routes.segment_ok leaf = true ->
  Routes.path_join ["Workspaces"; ws; "Workers"; wk; leaf] =
    "Workspaces/" +:+ ws +:+ "/Workers/" +:+ wk +:+ "/" +:+ leaf.
Proof.
  intros Hws Hwk Hleaf.
  rewrite (RoutesResolve.plain_route_path ws wk); [done|done..| |done].
  cbn [forallb]. rewrite Hleaf, !String.eqb_refl. cbn.
  by rewrite !orb_true_r.
Qed.

(** X9.  [kick] and [hold], given a string worker sid (and a boolean for
    [hold]), send their request under the current API version to the kick
    and hold paths of the worker, which have no placeholder: the sid of the
    Task travels in TaskSid, the target in TargetWorkerSid and the flag in
    Hold. *)
Theorem kick_hold_requests env ws wk target onHold s :
  isString target = true ->
  Routes.plain_sid ws = true -> Routes.plain_sid wk = true ->
  Routes.new ws wk = inr (routes s) ->
  invoke env (CallKick target) s =
    (Returns (Awaiting
       {| url := "Workspaces/" +:+ ws +:+ "/Workers/" +:+ wk
                 +:+ "/KickWorkerParticipant";
          params := <["TargetWorkerSid" := target]>
                      (<["TaskSid" := field "sid" s]> ∅);
          api := API_V2 |}), s) /\
  (isBoolean onHold = true ->
   invoke env (CallHold target onHold) s =
     (Returns (Awaiting
        {| url := "Workspaces/" +:+ ws +:+ "/Workers/" +:+ wk
                  +:+ "/HoldWorkerParticipant";
           params := <["Hold" := onHold]>
                       (<["TargetWorkerSid" := target]>
                          (<["TaskSid" := field "sid" s]> ∅));
           api := API_V2 |}), s)).
Proof.
  intros Htarget Hws Hwk Hnew. split.
  - unfold invoke, call_sync, kick. rewrite Htarget. cbn [negb].
    unfold bind at 1. unfold this at 1. unfold bind.
    rewrite (route_path_registered ws wk s _
               ["Workspaces"; ws; "Workers"; wk; "KickWorkerParticipant"])
      by (done || RoutesResolve.in_table).
    by rewrite worker_route_path.
  - intros HonHold. unfold invoke, call_sync, hold.
    rewrite Htarget, HonHold. cbn [negb].
    unfold bind at 1. unfold this at 1. unfold bind.
    rewrite (route_path_registered ws wk s _
               ["Workspaces"; ws; "Workers"; wk; "HoldWorkerParticipant"])
      by (done || RoutesResolve.in_table).
    by rewrite worker_route_path.
Qed.

Lemma kick_hold_requests_witness :
  (isString (VStr "WKzzz") = true /\
   Routes.plain_sid "WSxxx" = true /\ Routes.plain_sid "WKyyy" = true /\
   Routes.new "WSxxx" "WKyyy" = inr (routes sample_task)) /\
  invoke SpecModel.env (CallKick (VStr "WKzzz")) sample_task =
    (Returns (Awaiting
       {| url := "Workspaces/WSxxx/Workers/WKyyy/KickWorkerParticipant";
          params := <["TargetWorkerSid" := VStr "WKzzz"]>
                      (<["TaskSid" := VStr "WTxxx"]> ∅);
          api := API_V2 |}), sample_task).
Proof.
  split; [by repeat split|].
  destruct (kick_hold_requests SpecModel.env "WSxxx" "WKyyy" (VStr "WKzzz")
              (VBool true) sample_task eq_refl eq_refl eq_refl eq_refl)
    as [H _].
  exact H.
Defined.

(** X10.  [updateParticipant({hold: b})], when [validateOptions] accepts the
    options, sends to the customer-participant path of the worker, under the
    current API version, a request with TaskSid and with the option under
    its capitalised name, Hold. *)
Theorem updateParticipant_request env ws wk b s :
  validateOptions env (VObj [("hold", VBool b)]) [("hold", isBoolean)] = true ->
  Routes.plain_sid ws = true -> Routes.plain_sid wk = true ->
  Routes.new ws wk = inr (routes s) ->
  invoke env (CallUpdateParticipant (VObj [("hold", VBool b)])) s =
    (Returns (Awaiting
       {| url := "Workspaces/" +:+ ws +:+ "/Workers/" +:+ wk
                 +:+ "/CustomerParticipant";
          params := <["Hold" := VBool b]> (<["TaskSid" := field "sid" s]> ∅);
          api := API_V2 |}), s).
Proof.
  intros Hvalid Hws Hwk Hnew.
  unfold invoke, call_sync, updateParticipant.
  unfold bind at 1. unfold this at 1. rewrite Hvalid. cbn [negb].
  unfold bind.
  rewrite (route_path_registered ws wk s _
             ["Workspaces"; ws; "Workers"; wk; "CustomerParticipant"])
    by (done || RoutesResolve.in_table).
  by rewrite worker_route_path.
Qed.

Lemma updateParticipant_request_witness :
  (validateOptions SpecModel.env (VObj [("hold", VBool true)])
     [("hold", isBoolean)] = true /\
   Routes.plain_sid "WSxxx" = true /\ Routes.plain_sid "WKyyy" = true /\
   Routes.new "WSxxx" "WKyyy" = inr (routes sample_task)) /\
  invoke SpecModel.env (CallUpdateParticipant (VObj [("hold", VBool true)]))
    sample_task =
    (Returns (Awaiting
       {| url := "Workspaces/WSxxx/Workers/WKyyy/CustomerParticipant";
          params := <["Hold" := VBool true]> (<["TaskSid" := VStr "WTxxx"]> ∅);
          api := API_V2 |}), sample_task).
Proof.
  split; [by repeat split|].
  exact (updateParticipant_request SpecModel.env "WSxxx" "WKyyy" true
           sample_task eq_refl eq_refl eq_refl eq_refl).
Defined.

(** X11.  The default [{}] of the options is taken for [undefined] only:
    with [null] for options, [transfer] returns a promise rejected with the
    TypeError of reading a property of [null], and [wrapUp] throws it, and
    no request is sent. *)
Theorem null_options_rejected env ws wk to s :
  isString to = true ->
  Routes.plain_sid ws = true ->
  Routes.new ws wk = inr (routes s) ->
  Routes.plain_argument (toString (field "sid" s)) = true ->
  invoke env (CallTransfer to VNull) s = (Returns (Rejected NullDereference), s) /\
  invoke env (CallWrapUp VNull) s = (Throws NullDereference, s).
Proof.
  intros Hto Hws Hnew Hsid. split.
  - unfold invoke, call_async, transfer. rewrite Hto. cbn [negb].
    unfold bind at 1. unfold this at 1. unfold bind at 1.
    by rewrite (route_path_registered ws wk s _
                  ["Workspaces"; ws; "Workers"; wk; "Transfers"])
      by (done || RoutesResolve.in_table).
  - unfold invoke, call_sync, wrapUp.
    unfold bind at 1. unfold this at 1. unfold bind at 1.
    by rewrite (route_path_task_instance ws wk) by done.
Qed.

Lemma null_options_rejected_witness :
  (isString (VStr "WKzzz") = true /\ Routes.plain_sid "WSxxx" = true /\
   Routes.new "WSxxx" "WKyyy" = inr (routes sample_task) /\
   Routes.plain_argument (toString (field "sid" sample_task)) = true) /\
  invoke SpecModel.env (CallTransfer (VStr "WKzzz") VNull) sample_task =
    (Returns (Rejected NullDereference), sample_task).
Proof.
  split; [by repeat split|].
  destruct (null_options_rejected SpecModel.env "WSxxx" "WKyyy" (VStr "WKzzz")
              sample_task eq_refl eq_refl eq_refl eq_refl) as [H _].
  exact H.
Defined.

(** ** Events *)

Lemma malformed_transfer_event_run env et raw s :
  isString et = false \/ isObject raw = false ->
  _emitEventForOutgoingTransfer env et raw s =
    (inl (if isString et then OutgoingPayloadRequired
          else OutgoingEventTypeRequired),
     add_log (TraceEmitEventForOutgoingTransfer et raw) s).
Proof.
  intros H. unfold _emitEventForOutgoingTransfer, bind, update.
  destruct (isString et); [|done].
  destruct H as [H|H]; [done|]. by rewrite H.
Qed.

(** X12.  An outgoing-transfer event whose type is not a string or whose
    data is not an object is refused with a TypeError before the transfers
    are looked at, the type being checked first: whatever transfer is held,
    nothing but the trace entry is added to the Task. *)
Theorem malformed_transfer_event_refused env et raw s :
  isString et = false \/ isObject raw = false ->
  _emitEventForOutgoingTransfer env et raw s =
    (inl (if isString et then OutgoingPayloadRequired
          else OutgoingEventTypeRequired),
     add_log (TraceEmitEventForOutgoingTransfer et raw) s).
Proof. apply malformed_transfer_event_run. Qed.

Lemma malformed_transfer_event_witness :
  (isString (VNum 7) = false \/ isObject (VObj []) = false) /\
  _emitEventForOutgoingTransfer SpecModel.env (VNum 7) (VObj [])
    sample_transferring =
    (inl OutgoingEventTypeRequired,
     add_log (TraceEmitEventForOutgoingTransfer (VNum 7) (VObj []))
       sample_transferring).
Proof.
  split; [by left|].
  exact (malformed_transfer_event_refused SpecModel.env (VNum 7) (VObj [])
           sample_transferring (or_introl eq_refl)).
Defined.

Lemma on_transfers_frame m s :
  fields (on_transfers m s).2 = fields s /\
  routes (on_transfers m s).2 = routes s /\
  log (on_transfers m s).2 = log s /\
  emitted (on_transfers m s).2 = emitted s.
Proof. unfold on_transfers. by destruct (m (transfers s)). Qed.

(** How an outgoing-transfer event runs on a Task whose fields have been
    replaced: in the same way, the fields replaced in the result. *)
Lemma outgoing_event_set_fields env et raw f s :
  _emitEventForOutgoingTransfer env et raw (set_fields f s) =
    ((_emitEventForOutgoingTransfer env et raw s).1,
     set_fields f (_emitEventForOutgoingTransfer env et raw s).2).
Proof.
  destruct (isString et) eqn:Het; [destruct (isObject raw) eqn:Hraw|].
  - destruct (isObject_getProp raw "sid" Hraw) as [sid Hsid].
    rewrite !(outgoing_event_run env et raw _ sid) by done.
    cbn [transfers set_fields].
    destruct (outgoing (transfers s)) as [held|]; [|done].
    destruct (strictEq (transfer_sid held) sid); [|done].
    destruct (is_transfer_initiated et).
    + by destruct (Transfers_updateOutgoing env raw VUndefined (transfers s))
        as [[e|[]] ts].
    + unfold on_transfers. cbn [transfers add_log set_fields].
      by destruct (Transfers_emitEvent env et raw (transfers s)).
  - by rewrite !malformed_transfer_event_run, Het by by right.
  - by rewrite !malformed_transfer_event_run, Het by by left.
Qed.

Lemma transfer_event_keeps_fields_lemma env et raw s :
  fields (_emitEventForOutgoingTransfer env et raw s).2 = fields s /\
  routes (_emitEventForOutgoingTransfer env et raw s).2 = routes s.
Proof.
  pose proof (outgoing_event_set_fields env et raw (fields s) s) as H.
  rewrite set_fields_id in H.
  destruct (_emitEventForOutgoingTransfer env et raw s) as [r s'] eqn:E.
  cbn [fst snd] in *. injection H as H. 
  split.
  - by rewrite H at 1.
  - destruct (isString et) eqn:Het; [destruct (isObject raw) eqn:Hraw|].
    + destruct (isObject_getProp raw "sid" Hraw) as [sid Hsid].
      rewrite (outgoing_event_run env et raw _ sid) in E by done.
      destruct (outgoing (transfers s)) as [held|]; [|by injection E as _ <-].
      destruct (strictEq (transfer_sid held) sid); [|by injection E as _ <-].
      destruct (is_transfer_initiated et).
      * destruct (Transfers_updateOutgoing env raw VUndefined (transfers s))
          as [[e|[]] ts]; by injection E as _ <-.
      * destruct (on_transfers_frame (Transfers_emitEvent env et raw)
          (add_log (TraceEmitEventForOutgoingTransfer et raw) s)) as (_ & H2 & _).
        rewrite E in H2. exact H2.
    + rewrite malformed_transfer_event_run in E by by right.
      by injection E as _ <-.
    + rewrite malformed_transfer_event_run in E by by left.
      by injection E as _ <-.
Qed.

(** X13.  An outgoing-transfer event never changes the Task's own fields
    nor its routes, whatever the event, the transfer held and the routines
    of the transfers do. *)
Theorem transfer_event_keeps_fields env et raw s :
  fields (_emitEventForOutgoingTransfer env et raw s).2 = fields s /\
  routes (_emitEventForOutgoingTransfer env et raw s).2 = routes s.
Proof. apply transfer_event_keeps_fields_lemma. Qed.

(** ** Reconciliation *)

(** X14.  Reconciliation is not atomic when the merge routine of the
    transfers throws: the fields have been copied from the descriptor by
    then and stay copied, the transfers are as the routine left them, and
    what is thrown is the update-aborted error with the payload's sid and
    the routine's error. *)
Theorem update_merge_failure env payload td s d e ts sid :
  TaskDescriptor env payload (field "_config" s) = inr d ->
  carries_transfers (default_empty td) = true ->
  Transfers_update env (default_empty td) (transfers s) = (inl e, ts) ->
  getProp payload "sid" = Some sid ->
  _update env payload td s =
    (inl (UpdateAborted sid e),
     add_log (ErrorUpdateFailed sid e)
       (set_transfers ts
          (set_fields (copy_fields d (fields s) data_fields) s))).
Proof.
  intros Hd Hcarries Hmerge Hsid.
  rewrite _update_run, Hd. cbv zeta. rewrite Hcarries, Hmerge.
  unfold carries_transfers in Hcarries.
  destruct (getProp (default_empty td) "incoming"); [|done].
  by rewrite abort_update_run, Hsid.
Qed.

Lemma update_merge_failure_witness :
  (TaskDescriptor TaskFixtures.failing_merge_env sample_payload
     (field "_config" sample_task) = inr sample_descriptor /\
   carries_transfers (default_empty sample_transfers_payload) = true /\
   getProp sample_payload "sid" = Some (VStr "WTxxx")) /\
  field "status"
    (_update TaskFixtures.failing_merge_env sample_payload
       sample_transfers_payload sample_task).2 = VStr "completed".
Proof.
  assert (TaskDescriptor TaskFixtures.failing_merge_env sample_payload
            (field "_config" sample_task) = inr sample_descriptor) as H
    by (by apply sample_parses).
  split; [by repeat split|].
  rewrite (update_merge_failure TaskFixtures.failing_merge_env sample_payload
             sample_transfers_payload sample_task sample_descriptor
             (TransfersError "merge failed") no_transfers (VStr "WTxxx") H
             eq_refl eq_refl eq_refl).
  vm_compute. reflexivity.
Defined.

(** X15.  The default [{}] of the transfers payload is taken for
    [undefined] only: with [null], a payload that parses has its fields
    copied and then the call throws the update-aborted error, its cause the
    TypeError of reading a property of [null]; the transfers are not
    touched. *)
Theorem update_null_transfers env payload s d sid :
  TaskDescriptor env payload (field "_config" s) = inr d ->
  getProp payload "sid" = Some sid ->
  _update env payload VNull s =
    (inl (UpdateAborted sid NullDereference),
     add_log (ErrorUpdateFailed sid NullDereference)
       (set_fields (copy_fields d (fields s) data_fields) s)).
Proof.
  intros Hd Hsid. rewrite _update_run, Hd. cbn [default_empty getProp].
  cbv zeta. by rewrite abort_update_run, Hsid.
Qed.

Lemma update_null_transfers_witness :
  (TaskDescriptor SpecModel.env sample_payload (field "_config" sample_task) =
     inr sample_descriptor /\
   getProp sample_payload "sid" = Some (VStr "WTxxx")) /\
  (_update SpecModel.env sample_payload VNull sample_task).1 =
    inl (UpdateAborted (VStr "WTxxx") NullDereference).
Proof.
  assert (TaskDescriptor SpecModel.env sample_payload
            (field "_config" sample_task) = inr sample_descriptor) as H
    by (by apply sample_parses).
  split; [by repeat split|].
  by rewrite (update_null_transfers SpecModel.env sample_payload sample_task
                sample_descriptor (VStr "WTxxx") H eq_refl).
Defined.

(** X16.  Reconciliation emits no event and leaves the routes alone,
    whatever the payloads and whether it throws; and it writes to the log
    only when it throws: when it returns, the log is as it was. *)
Theorem update_emits_nothing env payload td s :
  emitted (_update env payload td s).2 = emitted s /\
  routes (_update env payload td s).2 = routes s /\
  ((_update env payload td s).1 = inr tt -> log (_update env payload td s).2 = log s).
Proof.
  rewrite _update_run.
  destruct (TaskDescriptor env payload (field "_config" s)) as [e|d].
  - destruct (abort_update_frame payload e s) as (_ & _ & -> & ->).
    rewrite abort_update_run. by destruct (getProp payload "sid").
  - cbv zeta.
    set (s1 := set_fields (copy_fields d (fields s) data_fields) s).
    destruct (getProp (default_empty td) "incoming").
    + destruct (carries_transfers (default_empty td)); [|done].
      destruct (Transfers_update env (default_empty td) (transfers s))
        as [[e|[]] ts]; [|done].
      destruct (abort_update_frame payload e (set_transfers ts s1))
        as (_ & _ & -> & ->).
      rewrite abort_update_run. by destruct (getProp payload "sid").
    + destruct (abort_update_frame payload NullDereference s1)
        as (_ & _ & -> & ->).
      rewrite abort_update_run. by destruct (getProp payload "sid").
Qed.

Lemma copy_fields_copy (d1 d2 m : gmap string value) fs :
  copy_fields d2 (copy_fields d1 m fs) fs = copy_fields d2 m fs.
Proof.
  apply map_eq. intros f. rewrite !lookup_copy_fields.
  by destruct (bool_decide (f ∈ fs)).
Qed.

Lemma _update_config env payload td s :
  field "_config" (_update env payload td s).2 = field "_config" s.
Proof.
  destruct (TaskDescriptor env payload (field "_config" s)) as [e|d] eqn:E.
  - rewrite _update_run, E. unfold field.
    by destruct (abort_update_frame payload e s) as (-> & _).
  - unfold field. rewrite (_update_fields env payload td s d E).
    by rewrite lookup_copy_fields.
Qed.

(** X17.  The last writer wins: after two reconciliations in succession the
    fields are those that the second alone would have given, whatever the
    first payload was and whether the first call threw. *)
Theorem update_last_writer_wins env payload1 td1 payload2 td2 s d2 :
  TaskDescriptor env payload2 (field "_config" s) = inr d2 ->
  fields (_update env payload2 td2 (_update env payload1 td1 s).2).2 =
    fields (_update env payload2 td2 s).2.
Proof.
  intros Hd2.
  rewrite (_update_fields env payload2 td2 _ d2)
    by by rewrite _update_config.
  rewrite (_update_fields env payload2 td2 s d2) by done.
  destruct (TaskDescriptor env payload1 (field "_config" s)) as [e|d1] eqn:E.
  - rewrite (_update_run env payload1), E.
    by destruct (abort_update_frame payload1 e s) as (-> & _).
  - rewrite (_update_fields env payload1 td1 s d1 E).
    apply copy_fields_copy.
Qed.

Lemma update_last_writer_wins_witness :
  TaskDescriptor SpecModel.env sample_payload (field "_config" sample_task) =
    inr sample_descriptor /\
  field "status"
    (_update SpecModel.env sample_payload VUndefined
       (_update SpecModel.env (VObj []) VUndefined sample_task).2).2 =
    VStr "completed".
Proof.
  assert (TaskDescriptor SpecModel.env sample_payload
            (field "_config" sample_task) = inr sample_descriptor) as H
    by (by apply sample_parses).
  split; [exact H|]. unfold field.
  rewrite (update_last_writer_wins SpecModel.env (VObj []) VUndefined
             sample_payload VUndefined sample_task sample_descriptor H).
  vm_compute. reflexivity.
Defined.

(** X18.  A reconciliation of the Task's fields and an outgoing-transfer
    event commute: applied in either order they leave the same Task, and
    each returns or throws what it does when applied first. *)
Theorem update_commutes_with_transfer_event env payload et raw s d :
  TaskDescriptor env payload (field "_config" s) = inr d ->
  (_emitEventForOutgoingTransfer env et raw
     (_update env payload VUndefined s).2).2 =
    (_update env payload VUndefined
       (_emitEventForOutgoingTransfer env et raw s).2).2 /\
  (_emitEventForOutgoingTransfer env et raw
     (_update env payload VUndefined s).2).1 =
    (_emitEventForOutgoingTransfer env et raw s).1 /\
  (_update env payload VUndefined
     (_emitEventForOutgoingTransfer env et raw s).2).1 =
    (_update env payload VUndefined s).1.
Proof.
  intros Hd.
  destruct (transfer_event_keeps_fields_lemma env et raw s) as [Hf _].
  assert (forall s', fields s' = fields s ->
            _update env payload VUndefined s' =
              (inr tt, set_fields (copy_fields d (fields s) data_fields) s'))
    as Hu.
  { intros s' Hs'. rewrite _update_run. unfold field. rewrite Hs'.
    fold (field "_config" s). by rewrite Hd. }
  rewrite (Hu s eq_refl), (Hu _ Hf). cbn [fst snd].
  rewrite outgoing_event_set_fields. by repeat split.
Qed.

Lemma update_commutes_witness :
  let raw := VObj [("sid", VStr "TRaaa")] in
  TaskDescriptor SpecModel.env sample_payload
    (field "_config" sample_transferring) = inr sample_descriptor /\
  (_emitEventForOutgoingTransfer SpecModel.env (VStr TRANSFER_INITIATED) raw
     (_update SpecModel.env sample_payload VUndefined sample_transferring).2).2 =
    (_update SpecModel.env sample_payload VUndefined
       (_emitEventForOutgoingTransfer SpecModel.env (VStr TRANSFER_INITIATED)
          raw sample_transferring).2).2.
Proof.
  intros raw.
  assert (TaskDescriptor SpecModel.env sample_payload
            (field "_config" sample_transferring) = inr sample_descriptor)
    as H by (by apply sample_parses).
  split; [exact H|].
  destruct (update_commutes_with_transfer_event SpecModel.env sample_payload
              (VStr TRANSFER_INITIATED) raw sample_transferring
              sample_descriptor H) as [H' _].
  exact H'.
Defined.

End TaskMore.
